(** * CloudRF API client (APIv2/new-python-wip/core/CloudRF.py)

    A shallow embedding of the request-construction and validation pipeline
    of the [CloudRF] class: the dot-notation merge of a CSV row into the JSON
    template, the API-key, request-type and CSV validators, the HTTP status
    classifier and the control flow of [__init__]. *)

From Stdlib Require Import String Ascii List Bool ZArith Lia PrimFloat.
Import ListNotations.
Open Scope string_scope.

(** ** Python values *)

Module Py.

(** Keys of the dictionaries met in this program: the strings produced by
    [json.load] and [csv.DictReader], and [None], which [DictReader] uses
    as its [restkey]. *)
Inductive pykey : Type :=
| KNone
| KStr (s : string).

(** The values [json.load] and [csv.DictReader] can produce.  A [dict] is
    an association list in insertion order with pairwise distinct keys. *)
#[warnings="-register-all"]
Inductive pyval : Type :=
| PNone
| PBool (b : bool)
| PInt (z : Z)
| PFloat (f : float)
| PStr (s : string)
| PList (l : list pyval)
| PDict (d : list (pykey * pyval)).

Definition dict : Type := list (pykey * pyval).

Definition key_eqb (a b : pykey) : bool :=
  match a, b with
  | KNone, KNone => true
  | KStr s, KStr t => String.eqb s t
  | _, _ => false
  end.

(** [d.get(k)] *)
Fixpoint dict_get (k : pykey) (d : dict) : option pyval :=
  match d with
  | [] => None
  | (k', v) :: rest => if key_eqb k k' then Some v else dict_get k rest
  end.

(** [d[k] = v]: an existing key keeps its position, a new key is appended. *)
Fixpoint dict_set (k : pykey) (v : pyval) (d : dict) : dict :=
  match d with
  | [] => [(k, v)]
  | (k', v') :: rest =>
      if key_eqb k k' then (k', v) :: rest else (k', v') :: dict_set k v rest
  end.

(** [str(key)] *)
Definition str (k : pykey) : string :=
  match k with
  | KNone => "None"
  | KStr s => s
  end.

(** Truth value of a key, as tested by [not key]. *)
Definition key_truthy (k : pykey) : bool :=
  match k with
  | KNone => false
  | KStr s => negb (String.eqb s "")
  end.

(** Truth value of a value, as tested by [not value]. *)
Definition truthy (v : pyval) : bool :=
  match v with
  | PNone => false
  | PBool b => b
  | PInt z => negb (Z.eqb z 0)
  | PFloat f => negb (PrimFloat.eqb f PrimFloat.zero)
  | PStr s => negb (String.eqb s "")
  | PList l => match l with [] => false | _ :: _ => true end
  | PDict d => match d with [] => false | _ :: _ => true end
  end.

(** [s.split(sep)] for a one-character separator: one more part than
    there are separators, the empty string giving one empty part. *)
Fixpoint split (sep : ascii) (s : string) : list string :=
  match s with
  | EmptyString => [EmptyString]
  | String c s' =>
      if Ascii.eqb c sep then EmptyString :: split sep s'
      else match split sep s' with
           | [] => [String c EmptyString]
           | p :: ps => String c p :: ps
           end
  end.

(** [s.rstrip(c)] for a one-character argument. *)
Fixpoint rstrip (c : ascii) (s : string) : string :=
  match s with
  | EmptyString => EmptyString
  | String x s' =>
      let r := rstrip c s' in
      if Ascii.eqb x c && String.eqb r "" then EmptyString else String x r
  end.

(** A Python character is one [ascii], read as a code point below 256.
    In that range the characters with a Unicode numeric value are the
    digits 0-9, the superscripts U+00B2, U+00B3, U+00B9 and the fractions
    U+00BC, U+00BD, U+00BE. *)
Definition numeric_char (c : ascii) : bool :=
  let n := nat_of_ascii c in
  (Nat.leb 48 n && Nat.leb n 57)
  || Nat.eqb n 178 || Nat.eqb n 179 || Nat.eqb n 185
  || Nat.eqb n 188 || Nat.eqb n 189 || Nat.eqb n 190.

Fixpoint all_numeric (s : string) : bool :=
  match s with
  | EmptyString => true
  | String c s' => numeric_char c && all_numeric s'
  end.

(** [s.isnumeric()]: at least one character and all of them numeric. *)
Definition isnumeric (s : string) : bool :=
  match s with
  | EmptyString => false
  | String _ _ => all_numeric s
  end.

End Py.
Import Py.

(** ** The csv module *)

Module Csv.

(** What [csv.reader] yields for one line: the list of its fields.  A blank
    line yields the empty list. *)
Definition record : Type := list string.

(** [dict(zip(fieldnames, row))] *)
Fixpoint zip_dict (fieldnames : list string) (row : record) (d : dict) : dict :=
  match fieldnames, row with
  | f :: fs, c :: cs => zip_dict fs cs (dict_set (KStr f) (PStr c) d)
  | _, _ => d
  end.

(** The body of [DictReader.__next__] with the default [restkey] and
    [restval], both [None]: fields beyond the header are gathered in a
    list under the key [None], missing fields are filled with [None]. *)
Definition make_row (fieldnames : list string) (row : record) : dict :=
  let d := zip_dict fieldnames row [] in
  let lf := length fieldnames in
  let lr := length row in
  if Nat.ltb lf lr then dict_set KNone (PList (map PStr (skipn lf row))) d
  else if Nat.ltb lr lf then
    fold_left (fun d key => dict_set (KStr key) PNone d) (skipn lr fieldnames) d
  else d.

Definition blank (row : record) : bool :=
  match row with [] => true | _ :: _ => false end.

(** [csv.DictReader(f)] iterated to the end: the first record gives the
    field names, blank records are skipped, every other record becomes a
    dictionary. *)
Definition DictReader (records : list record) : list dict :=
  match records with
  | [] => []
  | fieldnames :: rest =>
      map (make_row fieldnames) (filter (fun r => negb (blank r)) rest)
  end.

End Csv.

(** ** How the process ends, what it prints and sends *)

(** The two [AttributeError]s raised by [__validateCsv] (lines 167, 173). *)
Inductive attribute_error : Type :=
| EmptyHeaderOrValue
| DepthExceeded (depth : nat).

(** The messages handed to [sys.exit], one constructor per call site. *)
Inductive exit_message : Type :=
| ProcessCompleted                       (* line 64 *)
| SslErrorOccurred                       (* line 110 *)
| Http400                                (* line 118 *)
| Http401                                (* line 120 *)
| Http403                                (* line 122 *)
| Http500                                (* line 124 *)
| HttpUnknown                            (* line 126 *)
| MaximumDepth                           (* line 139 *)
| ApiKeyFormat                           (* line 148 *)
| ApiKeyUid                              (* line 151 *)
| ApiKeyToken                            (* line 154 *)
| CsvPermission                          (* line 179 *)
| CsvAttribute (e : attribute_error)     (* line 181 *)
| CsvUnknown                             (* line 183 *)
| TemplateNotFound                       (* line 187 *)
| CsvNotFound                            (* line 193 *)
| OutputNotWritable                      (* line 212 *)
| TemplatePermission                     (* line 219 *)
| TemplateNotJson                        (* line 221 *)
| TemplateUnknown                        (* line 223 *)
| UnsupportedRequest.                    (* line 231 *)

(** Exceptions that no handler of the program catches. *)
Inductive exception : Type :=
| KeyError
| TypeError
| OSError
| RequestException.

Inductive failure : Type :=
| SystemExit (m : exit_message)
| Uncaught (e : exception).

Inductive result (A : Type) : Type :=
| Ok (a : A)
| Fail (f : failure).
Arguments Ok {A} a.
Arguments Fail {A} f.

(** Lines written to standard output. *)
Inductive message : Type :=
| HelpText                               (* lines 40-41 *)
| StrictSslDisabled                      (* line 44 *)
| ValidRequestType (rt : string)         (* line 229 *)
| TemplateFound                          (* line 189 *)
| CsvFound                               (* line 195 *)
| CsvNotSpecified                        (* line 197 *)
| OutputDirMissing                       (* line 200 *)
| OutputDirCreated                       (* line 202 *)
| OutputDirExists                        (* line 204 *)
| RunningCalculation (rt : option string) (* line 92 *)
| HttpErrorOccurred (code : Z)           (* line 114 *)
| Text (s : string).                     (* lines 107, 115 *)

Inductive event : Type :=
| Print (m : message)
| DisableWarnings                        (* line 45 *)
| Post (url key : string) (json : pyval) (verify : bool).  (* lines 95-102 *)

Definition is_post (e : event) : bool :=
  match e with Post _ _ _ _ => true | _ => false end.

(** The requests among a list of events, in the order they were sent. *)
Definition posts (evs : list event) : list event := filter is_post evs.

(** The JSON bodies of the requests among a list of events. *)
Fixpoint bodies (evs : list event) : list pyval :=
  match evs with
  | [] => []
  | Post _ _ json _ :: rest => json :: bodies rest
  | _ :: rest => bodies rest
  end.

(** ** The surroundings of the process *)

(** The namespace returned by [parse_args] (lines 75-85). *)
Record arguments : Type := {
  input_template : string;
  input_csv : option string;
  api_key : string;
  base_url : string;
  strict_ssl : bool;
  save_raw_response : bool;
  output_directory : string;
  output_file_type : string;
  verbose : bool
}.

Inductive json_file : Type :=
| JsonLoaded (v : pyval)
| JsonPermissionError
| JsonDecodeError
| JsonOtherError.

Inductive csv_file : Type :=
| CsvRecords (records : list Csv.record)
| CsvPermissionError
| CsvOtherError.

Inductive post_outcome : Type :=
| Response (status_code : Z) (text : string)
| SSLError
| OtherRequestError.

(** What the file system and the remote service answer: the three tests
    of [os.path.exists], whether [os.makedirs] succeeds, whether the probe
    file can be opened in the output directory ([false] stands for the
    [PermissionError] of line 211), the outcome of reading each input file,
    and [server n url json], the outcome of the request sent after [n]
    earlier ones. *)
Record environment : Type := {
  template_exists : bool;
  csv_exists : bool;
  output_exists : bool;
  makedirs_ok : bool;
  probe_ok : bool;
  template_file : json_file;
  csv_input : csv_file;
  server : nat -> string -> pyval -> post_outcome
}.

(** ** The process monad *)

(** The one mutable object of the program is the dictionary built by
    [json.load]: [self.__jsonTemplate], the parameter [templateJson] and the
    variable [newJsonData] all refer to it.  The state holds its current
    contents next to the events produced so far. *)
Record state : Type := {
  jsonTemplate : pyval;
  events : list event
}.

Definition initial : state := {| jsonTemplate := PNone; events := [] |}.

Definition Proc (A : Type) : Type := state -> result A * state.

Definition ret {A : Type} (a : A) : Proc A := fun st => (Ok a, st).

Definition bind {A B : Type} (m : Proc A) (k : A -> Proc B) : Proc B :=
  fun st =>
    match m st with
    | (Ok a, st') => k a st'
    | (Fail f, st') => (Fail f, st')
    end.

Declare Scope proc_scope.
Delimit Scope proc_scope with proc.
Notation "x <- m ;; k" := (bind m (fun x => k))
  (at level 61, m at next level, right associativity) : proc_scope.
Notation "m ;; k" := (bind m (fun _ => k))
  (at level 61, right associativity) : proc_scope.
Open Scope proc_scope.

Definition raise {A : Type} (f : failure) : Proc A := fun st => (Fail f, st).

(** [sys.exit(m)] *)
Definition exit {A : Type} (m : exit_message) : Proc A := raise (SystemExit m).

Definition lift {A : Type} (r : result A) : Proc A := fun st => (r, st).

Definition emit (e : event) : Proc unit :=
  fun st => (Ok tt, {| jsonTemplate := jsonTemplate st; events := events st ++ [e] |}).

Definition getTemplate : Proc pyval := fun st => (Ok (jsonTemplate st), st).

Definition setTemplate (v : pyval) : Proc unit :=
  fun st => (Ok tt, {| jsonTemplate := v; events := events st |}).

Definition when (b : bool) (m : Proc unit) : Proc unit := if b then m else ret tt.

(** ** Subscripting *)

(** [o[k]] for a key that is a string or [None]: only a dictionary accepts
    such a subscript. *)
Definition getitem (o : pyval) (k : pykey) : result pyval :=
  match o with
  | PDict d =>
      match dict_get k d with
      | Some v => Ok v
      | None => Fail (Uncaught KeyError)
      end
  | _ => Fail (Uncaught TypeError)
  end.

(** [o[k] = v], returning the contents of [o] after the assignment. *)
Definition setitem (o : pyval) (k : pykey) (v : pyval) : result pyval :=
  match o with
  | PDict d => Ok (PDict (dict_set k v d))
  | _ => Fail (Uncaught TypeError)
  end.

(** ** The class CloudRF *)

Section CloudRF.

(** [self.requestType] and [self.__arguments]; the surroundings. *)
Variable requestType : option string.
Variable args : arguments.
Variable env : environment.

(** [__verboseLog] (lines 233-235) *)
Definition verboseLog (m : message) : Proc unit :=
  when (verbose args) (emit (Print m)).

(** The test [if self.__arguments.input_csv]. *)
Definition csv_given : bool :=
  match input_csv args with
  | Some path => negb (String.eqb path "")
  | None => false
  end.

(** [__validateRequestType] (lines 225-231) *)
Definition allowedRequestTypes : list string := ["area"].

Definition validateRequestType : Proc unit :=
  match requestType with
  | Some rt =>
      if negb (String.eqb rt "") && existsb (String.eqb rt) allowedRequestTypes
      then verboseLog (ValidRequestType rt)
      else exit UnsupportedRequest
  | None => exit UnsupportedRequest
  end.

(** [__validateApiKey] (lines 143-154) *)
Definition validateApiKey : Proc unit :=
  let parts := split "-" (api_key args) in
  if negb (Nat.eqb (List.length parts) 2) then exit ApiKeyFormat
  else if negb (isnumeric (nth 0 parts "")) then exit ApiKeyUid
  else if negb (Nat.eqb (String.length (nth 1 parts "")) 40) then exit ApiKeyToken
  else ret tt.

(** [__validateFileAndDirectoryPermissions] (lines 185-212).  An error of
    [os.makedirs] is not handled by the program. *)
Definition validateFileAndDirectoryPermissions : Proc unit :=
  (if negb (template_exists env) then exit TemplateNotFound
   else verboseLog TemplateFound) ;;
  (if csv_given then
     if negb (csv_exists env) then exit CsvNotFound else verboseLog CsvFound
   else emit (Print CsvNotSpecified)) ;;
  (if negb (output_exists env) then
     verboseLog OutputDirMissing ;;
     (if makedirs_ok env then ret tt else raise (Uncaught OSError)) ;;
     verboseLog OutputDirCreated
   else ret tt) ;;
  verboseLog OutputDirExists ;;
  if probe_ok env then ret tt else exit OutputNotWritable.

(** [__validateJsonTemplate] (lines 214-223) *)
Definition validateJsonTemplate : Proc pyval :=
  match template_file env with
  | JsonLoaded v => ret v
  | JsonPermissionError => exit TemplatePermission
  | JsonDecodeError => exit TemplateNotJson
  | JsonOtherError => exit TemplateUnknown
  end.

(** The checks made on one item of a row (lines 166-173). *)
Definition check_item (item : pykey * pyval) : option attribute_error :=
  let (key, value) := item in
  if negb (key_truthy key) || negb (truthy value) then Some EmptyHeaderOrValue
  else
    let parts := split "." (str key) in
    if Nat.ltb 2 (List.length parts) then Some (DepthExceeded (List.length parts))
    else None.

(** The loop over the items of one row (line 165). *)
Fixpoint check_row (row : dict) : option attribute_error :=
  match row with
  | [] => None
  | item :: rest =>
      match check_item item with
      | Some e => Some e
      | None => check_row rest
      end
  end.

(** The loop over the rows (lines 164-175), [returnList] accumulating the
    rows already accepted. *)
Fixpoint check_rows (rows returnList : list dict) : attribute_error + list dict :=
  match rows with
  | [] => inr returnList
  | row :: rest =>
      match check_row row with
      | Some e => inl e
      | None => check_rows rest (returnList ++ [row])
      end
  end.

(** [__validateCsv] (lines 156-183); the result [None] is Python's [None],
    returned when no CSV file is given. *)
Definition validateCsv : Proc (option (list dict)) :=
  if csv_given then
    match csv_input env with
    | CsvRecords records =>
        match check_rows (Csv.DictReader records) [] with
        | inr returnList => ret (Some returnList)
        | inl e => exit (CsvAttribute e)
        end
    | CsvPermissionError => exit CsvPermission
    | CsvOtherError => exit CsvUnknown
    end
  else ret None.

(** The body of the loop of [__customiseJsonFromCsvRow] (lines 131-139).
    In the two-part case the inner dictionary is part of the template, so
    assigning into it changes the template under [parts[0]]. *)
Definition override (templateJson : pyval) (key : pykey) (value : pyval)
  : result pyval :=
  let parts := split "." (str key) in
  if Nat.eqb (List.length parts) 2 then
    match getitem templateJson (KStr (nth 0 parts "")) with
    | Ok inner =>
        match setitem inner (KStr (nth 1 parts "")) value with
        | Ok inner' => setitem templateJson (KStr (nth 0 parts "")) inner'
        | Fail f => Fail f
        end
    | Fail f => Fail f
    end
  else if Nat.eqb (List.length parts) 1 then setitem templateJson key value
  else Fail (SystemExit MaximumDepth).

(** [__customiseJsonFromCsvRow] (lines 128-141): the template is updated
    item by item and the very same object is returned. *)
Fixpoint customiseJsonFromCsvRow (templateJson : pyval) (csvRowDictionary : dict)
  : result pyval :=
  match csvRowDictionary with
  | [] => Ok templateJson
  | (key, value) :: rest =>
      match override templateJson key value with
      | Ok templateJson' => customiseJsonFromCsvRow templateJson' rest
      | Fail f => Fail f
      end
  end.

(** The exit chosen for a status other than 200 (lines 117-126). *)
Definition http_exit (httpStatusCode : Z) : exit_message :=
  if Z.eqb httpStatusCode 400 then Http400
  else if Z.eqb httpStatusCode 401 then Http401
  else if Z.eqb httpStatusCode 403 then Http403
  else if Z.eqb httpStatusCode 500 then Http500
  else HttpUnknown.

(** [__checkHttpResponse] (lines 112-126) *)
Definition checkHttpResponse (httpStatusCode : Z) (httpRawResponse : string)
  : Proc unit :=
  if negb (Z.eqb httpStatusCode 200) then
    emit (Print (HttpErrorOccurred httpStatusCode)) ;;
    emit (Print (Text httpRawResponse)) ;;
    exit (http_exit httpStatusCode)
  else ret tt.

(** [requests.post]: the request is recorded and the service answers
    according to the number of requests it has already received. *)
Definition post (url key : string) (json : pyval) (verify : bool)
  : Proc post_outcome :=
  fun st =>
    (Ok (server env (List.length (posts (events st))) url json),
     {| jsonTemplate := jsonTemplate st;
        events := events st ++ [Post url key json verify] |}).

(** [__calculate] (lines 87-110).  The request name, made from the clock,
    only labels the log line.  Concatenating [None] to the URL is a
    [TypeError]; a [requests] exception other than [SSLError] is not
    handled. *)
Definition endpoint (rt : string) : string :=
  rstrip "/" (base_url args) ++ "/" ++ rt.

Definition calculate (jsonData : pyval) : Proc unit :=
  verboseLog (RunningCalculation requestType) ;;
  match requestType with
  | None => raise (Uncaught TypeError)
  | Some rt =>
      response <- post (endpoint rt) (api_key args) jsonData (strict_ssl args) ;;
      match response with
      | Response status_code text =>
          checkHttpResponse status_code text ;;
          when (verbose args) (emit (Print (Text text)))
      | SSLError => exit SslErrorOccurred
      | OtherRequestError => raise (Uncaught RequestException)
      end
  end.

(** The loop of lines 55-59.  [customiseJsonFromCsvRow] is handed the
    object [self.__jsonTemplate] itself and returns it updated, so the
    template of the next iteration is the data sent in this one. *)
Fixpoint forRows (rows : list dict) : Proc unit :=
  match rows with
  | [] => ret tt
  | row :: rest =>
      templateJson <- getTemplate ;;
      newJsonData <- lift (customiseJsonFromCsvRow templateJson row) ;;
      setTemplate newJsonData ;;
      calculate newJsonData ;;
      forRows rest
  end.

(** Lines 38-51 of [__init__]: everything done before the first request,
    for a process whose interpreter check and argument parsing (lines
    34-36) have passed. *)
Definition startup : Proc (option (list dict)) :=
  when (verbose args) (emit (Print HelpText)) ;;
  when (negb (strict_ssl args))
       (verboseLog StrictSslDisabled ;; emit DisableWarnings) ;;
  validateRequestType ;;
  validateApiKey ;;
  validateFileAndDirectoryPermissions ;;
  template <- validateJsonTemplate ;;
  setTemplate template ;;
  validateCsv.

(** The test [if ... and self.__csvInputList]: [None] and the empty list
    count as false. *)
Definition rows_of (csvInputList : option (list dict)) : list dict :=
  match csvInputList with
  | Some rows => rows
  | None => []
  end.

Definition has_rows (csvInputList : option (list dict)) : bool :=
  match rows_of csvInputList with [] => false | _ :: _ => true end.

(** Lines 53-62 of [__init__]. *)
Definition dispatch (csvInputList : option (list dict)) : Proc unit :=
  if csv_given && has_rows csvInputList then forRows (rows_of csvInputList)
  else (jsonData <- getTemplate ;; calculate jsonData).

(** [__init__] (lines 38-64): it always ends in [sys.exit]. *)
Definition init : Proc unit :=
  csvInputList <- startup ;;
  dispatch csvInputList ;;
  exit ProcessCompleted.

End CloudRF.

(** The run of the program from a fresh state. *)
Definition run (requestType : option string) (args : arguments)
  (env : environment) : result unit * state :=
  init requestType args env initial.

(** ** The error taxonomy of the specification *)

Inductive spec_error : Type :=
| InvalidApiKeyFormat
| FileNotFound
| PermissionDenied
| InvalidJson
| MalformedCsvRow
| ExcessiveNestingDepth
| InvalidOverridePath
| UnsupportedRequestType
| TlsError
| TransportError
| BadRequest
| Unauthorized
| Forbidden
| ServerError
| UnknownHttpError.

(** The category a way of failing falls under: every diagnostic [sys.exit]
    is filed by what its message reports; an exception of [requests] that
    propagates is the specification's [TransportError].  The final exit of a
    completed run and the exceptions that escape as a bare traceback have no
    category. *)
Definition category (f : failure) : option spec_error :=
  match f with
  | SystemExit m =>
      match m with
      | ProcessCompleted => None
      | SslErrorOccurred => Some TlsError
      | Http400 => Some BadRequest
      | Http401 => Some Unauthorized
      | Http403 => Some Forbidden
      | Http500 => Some ServerError
      | HttpUnknown => Some UnknownHttpError
      | MaximumDepth => Some ExcessiveNestingDepth
      | ApiKeyFormat | ApiKeyUid | ApiKeyToken => Some InvalidApiKeyFormat
      | CsvPermission => Some PermissionDenied
      | CsvAttribute EmptyHeaderOrValue => Some MalformedCsvRow
      | CsvAttribute (DepthExceeded _) => Some ExcessiveNestingDepth
      | CsvUnknown => None
      | TemplateNotFound | CsvNotFound => Some FileNotFound
      | OutputNotWritable | TemplatePermission => Some PermissionDenied
      | TemplateNotJson => Some InvalidJson
      | TemplateUnknown => None
      | UnsupportedRequest => Some UnsupportedRequestType
      end
  | Uncaught RequestException => Some TransportError
  | Uncaught _ => None
  end.

(** ** Notions used in the statements *)

Open Scope list_scope.

(** The root-level key of the template that an override key addresses. *)
Definition root_key (key : pykey) : pykey :=
  let parts := split "." (str key) in
  if Nat.eqb (List.length parts) 1 then key else KStr (nth 0 parts "").

(** What a run in verbose mode prints before a request and after a
    response that passed the status check. *)
Definition running_log (args : arguments) (rt : string) : list event :=
  if verbose args then [Print (RunningCalculation (Some rt))] else [].

Definition echo_log (args : arguments) (text : string) : list event :=
  if verbose args then [Print (Text text)] else [].

(** The request [__calculate] sends for [jsonData]. *)
Definition request (args : arguments) (rt : string) (jsonData : pyval) : event :=
  Post (endpoint args rt) (api_key args) jsonData (strict_ssl args).

(** The failures raised by the validation of the CSV file. *)
Definition csv_failure (f : failure) : bool :=
  match f with
  | SystemExit (CsvAttribute _) => true
  | _ => false
  end.

(** A step of the process that sends no request: it can only add events
    that are not requests. *)
Definition quiet {A : Type} (m : Proc A) : Prop :=
  forall st, exists evs,
    events (snd (m st)) = events st ++ evs /\ posts evs = [].

(** The validations that precede the reading of the CSV file all pass and
    the template file holds [template]. *)
Definition preflight_ok (requestType : option string) (args : arguments)
  (env : environment) (template : pyval) : Prop :=
  requestType = Some "area" /\
  fst (validateApiKey args initial) = Ok tt /\
  template_exists env = true /\
  (csv_given args = true -> csv_exists env = true) /\
  (output_exists env = true \/ makedirs_ok env = true) /\
  probe_ok env = true /\
  template_file env = JsonLoaded template.

(** ** Sample data *)

Module Sample.

Definition key40 : string := "12345-abcdefabcdefabcdefabcdefabcdefabcdefabcd".

Definition keyed (key : string) (csv : option string) (verbose : bool)
  : arguments :=
  {| input_template := "/data/template.json";
     input_csv := csv;
     api_key := key;
     base_url := "https://api.cloudrf.com/";
     strict_ssl := true;
     save_raw_response := false;
     output_directory := "/data/output";
     output_file_type := "kmz";
     verbose := verbose |}.

Definition args : option string -> bool -> arguments := keyed key40.

(** [{"transmitter": {"lat": 1.0, "lon": 2.0}}] *)
Definition template : pyval :=
  PDict [(KStr "transmitter",
          PDict [(KStr "lat", PFloat 1.0); (KStr "lon", PFloat 2.0)])].

(** A world in which every file is in place and the service answers each
    request with the status the list gives for its position, 200 beyond
    the end of the list. *)
Definition env (tmpl : pyval) (records : list Csv.record) (codes : list Z)
  : environment :=
  {| template_exists := true;
     csv_exists := true;
     output_exists := true;
     makedirs_ok := true;
     probe_ok := true;
     template_file := JsonLoaded tmpl;
     csv_input := CsvRecords records;
     server := fun n _ _ => Response (nth n codes 200%Z) "body" |}.

End Sample.

(** ** Further notions *)

(** The number of occurrences of a character in a string. *)
Fixpoint count_char (c : ascii) (s : string) : nat :=
  match s with
  | EmptyString => 0
  | String x s' => (if Ascii.eqb x c then 1 else 0) + count_char c s'
  end.

(** The last character of a string, if it has one. *)
Fixpoint last_char (s : string) : option ascii :=
  match s with
  | EmptyString => None
  | String x EmptyString => Some x
  | String _ s' => last_char s'
  end.

(** The namespace with another value of one flag. *)
Definition with_base_url (args : arguments) (url : string) : arguments :=
  {| input_template := input_template args;
     input_csv := input_csv args;
     api_key := api_key args;
     base_url := url;
     strict_ssl := strict_ssl args;
     save_raw_response := save_raw_response args;
     output_directory := output_directory args;
     output_file_type := output_file_type args;
     verbose := verbose args |}.

Definition with_verbose (args : arguments) (v : bool) : arguments :=
  {| input_template := input_template args;
     input_csv := input_csv args;
     api_key := api_key args;
     base_url := base_url args;
     strict_ssl := strict_ssl args;
     save_raw_response := save_raw_response args;
     output_directory := output_directory args;
     output_file_type := output_file_type args;
     verbose := v |}.

(** [template[a][b]] *)
Definition getitem2 (o : pyval) (a b : pykey) : result pyval :=
  match getitem o a with
  | Ok inner => getitem inner b
  | Fail f => Fail f
  end.

(** The data built row after row when each row is merged into the result
    of the row before it; the list stops at the first merge that fails. *)
Fixpoint merges (templateJson : pyval) (rows : list dict) : list pyval :=
  match rows with
  | [] => []
  | row :: rest =>
      match customiseJsonFromCsvRow templateJson row with
      | Ok merged => merged :: merges merged rest
      | Fail _ => []
      end
  end.


(** Two states with the same template and the same requests sent. *)
Definition same_traffic (st st' : state) : Prop :=
  jsonTemplate st = jsonTemplate st' /\ posts (events st) = posts (events st').

(** Two steps that, from states with the same traffic, give the same
    result and states with the same traffic. *)
Definition agree {A : Type} (m m' : Proc A) : Prop :=
  forall st st', same_traffic st st' ->
    fst (m st) = fst (m' st') /\ same_traffic (snd (m st)) (snd (m' st')).

(** The failures of the validations made before the first request. *)
Definition startup_failure (f : failure) : bool :=
  match f with
  | SystemExit m =>
      match m with
      | UnsupportedRequest | ApiKeyFormat | ApiKeyUid | ApiKeyToken
      | TemplateNotFound | CsvNotFound | OutputNotWritable
      | TemplatePermission | TemplateNotJson | TemplateUnknown
      | CsvPermission | CsvAttribute _ | CsvUnknown => true
      | _ => false
      end
  | Uncaught OSError => true
  | Uncaught _ => false
  end.

(** The failures of the merge of a row and of a request. *)
Definition request_failure (f : failure) : bool :=
  match f with
  | SystemExit m =>
      match m with
      | MaximumDepth | SslErrorOccurred
      | Http400 | Http401 | Http403 | Http500 | HttpUnknown => true
      | _ => false
      end
  | Uncaught KeyError | Uncaught TypeError | Uncaught RequestException => true
  | Uncaught OSError => false
  end.

(** A step all of whose failures satisfy [P]. *)
Definition fails_only {A : Type} (P : failure -> bool) (m : Proc A) : Prop :=
  forall st f st', m st = (Fail f, st') -> P f = true.

(** The shape of the items [DictReader] builds: a string key with a string
    or [None] for its value, or the key [None] with a list. *)
Definition csv_item (item : pykey * pyval) : Prop :=
  (exists s, fst item = KStr s
             /\ (snd item = PNone \/ exists c, snd item = PStr c))
  \/ (fst item = KNone /\ exists l, snd item = PList l).

(** Where an override key points: a field at the root of the template, or a
    field of the mapping held under a root field. *)
Inductive target : Type :=
| Root (k : pykey)
| Nested (a b : string).

(** The target of a key of one or two parts (lines 134-137). *)
Definition target_of (key : pykey) : option target :=
  match split "." (str key) with
  | [_] => Some (Root key)
  | [a; b] => Some (Nested a b)
  | _ => None
  end.

(** The value found at a target. *)
Definition read (tg : target) (o : pyval) : result pyval :=
  match tg with
  | Root k => getitem o k
  | Nested a b => getitem2 o (KStr a) (KStr b)
  end.

(** Two targets neither of which is, contains or lies within the other. *)
Definition independent (tg tg' : target) : Prop :=
  match tg, tg' with
  | Root k, Root k' => k <> k'
  | Root k, Nested a _ => k <> KStr a
  | Nested a _, Root k => k <> KStr a
  | Nested a b, Nested a' b' => a <> a' \/ b <> b'
  end.

(** The keys [k] and [k'] point at independent targets. *)
Definition independent_keys (k k' : pykey) : Prop :=
  forall tg tg', target_of k = Some tg -> target_of k' = Some tg' ->
                 independent tg tg'.

(** Every key of the list is independent of the keys after it. *)
Fixpoint pairwise_independent (keys : list pykey) : Prop :=
  match keys with
  | [] => True
  | k :: rest =>
      (forall k', In k' rest -> independent_keys k k') /\ pairwise_independent rest
  end.

(** The data obtained when each row is merged into a fresh copy of the
    template; the list stops at the first merge that fails. *)
Fixpoint fresh_merges (templateJson : pyval) (rows : list dict) : list pyval :=
  match rows with
  | [] => []
  | row :: rest =>
      match customiseJsonFromCsvRow templateJson row with
      | Ok merged => merged :: fresh_merges templateJson rest
      | Fail _ => []
      end
  end.

(** * Properties *)

(** ** Sanity checks of the Python primitives *)

Example split_example :
  split "-" "a-b-" = ["a"; "b"; ""] /\ split "." "" = [""] /\
  rstrip "/" "https://api.cloudrf.com//" = "https://api.cloudrf.com" /\
  truthy (PFloat 0.0) = false /\ truthy (PFloat 2.0) = true.
Proof. repeat split; reflexivity. Qed.

Example isnumeric_example :
  isnumeric "12345" = true /\ isnumeric "" = false /\ isnumeric "12a" = false.
Proof. repeat split; reflexivity. Qed.

(** ** Dictionaries *)

Lemma key_eqb_eq (a b : pykey) : key_eqb a b = true <-> a = b.
Proof.
  destruct a as [|s], b as [|t]; simpl; split; intros H;
    try reflexivity; try discriminate.
  - apply String.eqb_eq in H. now subst.
  - injection H as ->. apply String.eqb_refl.
Qed.

Lemma key_eqb_refl (a : pykey) : key_eqb a a = true.
Proof. now apply key_eqb_eq. Qed.

Lemma key_eqb_neq (a b : pykey) : a <> b -> key_eqb a b = false.
Proof.
  intros H. destruct (key_eqb a b) eqn:E; [|reflexivity].
  apply key_eqb_eq in E. contradiction.
Qed.

Lemma dict_get_set_same (k : pykey) (v : pyval) (d : dict) :
  dict_get k (dict_set k v d) = Some v.
Proof.
  induction d as [|[k' v'] d IH]; simpl.
  - now rewrite key_eqb_refl.
  - destruct (key_eqb k k') eqn:E; simpl; rewrite E; auto.
Qed.

Lemma dict_get_set_other (k k' : pykey) (v : pyval) (d : dict) :
  k' <> k -> dict_get k' (dict_set k v d) = dict_get k' d.
Proof.
  intros Hne. induction d as [|[k0 v0] d IH]; simpl.
  - now rewrite (key_eqb_neq k' k).
  - destruct (key_eqb k k0) eqn:E; simpl.
    + apply key_eqb_eq in E. subst k0. now rewrite (key_eqb_neq k' k).
    + now rewrite IH.
Qed.

(** ** Splitting *)

Lemma split_not_nil (sep : ascii) (s : string) : split sep s <> [].
Proof.
  destruct s as [|c s]; simpl; [discriminate|].
  destruct (Ascii.eqb c sep); [discriminate|].
  destruct (split sep s); discriminate.
Qed.

(** ** The process monad *)

Lemma posts_app (a b : list event) : posts (a ++ b) = posts a ++ posts b.
Proof. apply filter_app. Qed.

Lemma bodies_app (a b : list event) : bodies (a ++ b) = bodies a ++ bodies b.
Proof.
  induction a as [|e a IH]; simpl; [reflexivity|].
  destruct e; simpl; now rewrite IH.
Qed.

Lemma posts_nil_bodies (evs : list event) : posts evs = [] -> bodies evs = [].
Proof.
  induction evs as [|e evs IH]; simpl; [reflexivity|].
  destruct e; simpl; auto; discriminate.
Qed.

Lemma quiet_ret {A : Type} (a : A) : quiet (ret a).
Proof. intros st. exists []. simpl. now rewrite app_nil_r. Qed.

Lemma quiet_raise {A : Type} (f : failure) : quiet (@raise A f).
Proof. intros st. exists []. simpl. now rewrite app_nil_r. Qed.

Lemma quiet_exit {A : Type} (m : exit_message) : quiet (@exit A m).
Proof. apply quiet_raise. Qed.

Lemma quiet_print (m : message) : quiet (emit (Print m)).
Proof. intros st. exists [Print m]. now simpl. Qed.

Lemma quiet_disable : quiet (emit DisableWarnings).
Proof. intros st. exists [DisableWarnings]. now simpl. Qed.

Lemma quiet_setTemplate (v : pyval) : quiet (setTemplate v).
Proof. intros st. exists []. simpl. now rewrite app_nil_r. Qed.

Lemma quiet_bind {A B : Type} (m : Proc A) (k : A -> Proc B) :
  quiet m -> (forall a, quiet (k a)) -> quiet (bind m k).
Proof.
  intros Hm Hk st. unfold bind.
  destruct (Hm st) as [e1 [E1 P1]].
  destruct (m st) as [[a|f] st1]; simpl in *.
  - destruct (Hk a st1) as [e2 [E2 P2]].
    exists (e1 ++ e2). rewrite E2, E1, app_assoc, posts_app, P1, P2. auto.
  - exists e1. auto.
Qed.

Lemma quiet_when (b : bool) (m : Proc unit) : quiet m -> quiet (when b m).
Proof. intros H. destruct b; simpl; [exact H | apply quiet_ret]. Qed.

Lemma quiet_verboseLog (args : arguments) (m : message) : quiet (verboseLog args m).
Proof. apply quiet_when, quiet_print. Qed.

Create HintDb quiet.
#[local] Hint Resolve quiet_ret quiet_raise quiet_exit quiet_print quiet_disable
  quiet_setTemplate quiet_when quiet_verboseLog : quiet.

Ltac quiet_steps :=
  repeat first
    [ apply quiet_bind; [|intros ?]
    | apply quiet_when
    | progress auto with quiet
    | match goal with
      | |- quiet (if ?b then _ else _) => destruct b
      | |- quiet (match ?x with _ => _ end) => destruct x
      end ].

Lemma quiet_validateRequestType (rt : option string) (args : arguments) :
  quiet (validateRequestType rt args).
Proof. unfold validateRequestType. quiet_steps. Qed.

Lemma quiet_validateApiKey (args : arguments) : quiet (validateApiKey args).
Proof. unfold validateApiKey. quiet_steps. Qed.

Lemma quiet_validateFiles (args : arguments) (env : environment) :
  quiet (validateFileAndDirectoryPermissions args env).
Proof. unfold validateFileAndDirectoryPermissions. quiet_steps. Qed.

Lemma quiet_validateJsonTemplate (env : environment) :
  quiet (validateJsonTemplate env).
Proof. unfold validateJsonTemplate. quiet_steps. Qed.

Lemma quiet_validateCsv (args : arguments) (env : environment) :
  quiet (validateCsv args env).
Proof. unfold validateCsv. quiet_steps. Qed.

#[local] Hint Resolve quiet_validateRequestType quiet_validateApiKey
  quiet_validateFiles quiet_validateJsonTemplate quiet_validateCsv : quiet.

(** Nothing is sent during the start-up validations. *)
Lemma quiet_startup (rt : option string) (args : arguments) (env : environment) :
  quiet (startup rt args env).
Proof. unfold startup. quiet_steps. Qed.

(** ** Merging a row into the template *)

Lemma customise_app (t : pyval) (r1 r2 : dict) :
  customiseJsonFromCsvRow t (r1 ++ r2) =
  match customiseJsonFromCsvRow t r1 with
  | Ok t' => customiseJsonFromCsvRow t' r2
  | Fail f => Fail f
  end.
Proof.
  revert t. induction r1 as [|[k v] r1 IH]; intros t; simpl; [reflexivity|].
  destruct (override t k v); [apply IH | reflexivity].
Qed.

Lemma customise_item (t current : pyval) (before after : dict)
  (key : pykey) (value : pyval) :
  customiseJsonFromCsvRow t before = Ok current ->
  customiseJsonFromCsvRow t (before ++ (key, value) :: after) =
  match override current key value with
  | Ok t' => customiseJsonFromCsvRow t' after
  | Fail f => Fail f
  end.
Proof. intros H. rewrite customise_app, H. reflexivity. Qed.

Lemma override_one (t : pyval) (key : pykey) (value : pyval) :
  List.length (split "." (str key)) = 1 ->
  override t key value = setitem t key value.
Proof. intros H. unfold override. now rewrite H. Qed.

Lemma override_two (t : pyval) (key : pykey) (value : pyval) (a b : string) :
  split "." (str key) = [a; b] ->
  override t key value =
  match getitem t (KStr a) with
  | Ok inner =>
      match setitem inner (KStr b) value with
      | Ok inner' => setitem t (KStr a) inner'
      | Fail f => Fail f
      end
  | Fail f => Fail f
  end.
Proof. intros H. unfold override. now rewrite H. Qed.

Lemma override_deep (t : pyval) (key : pykey) (value : pyval) :
  2 < List.length (split "." (str key)) ->
  override t key value = Fail (SystemExit MaximumDepth).
Proof.
  intros H. unfold override.
  destruct (List.length (split "." (str key))) as [|[|[|n]]]; try lia.
  reflexivity.
Qed.

(** C2: for an override key of a row, reached after the items before it
    have been applied, the number of parts of the key split on the dot
    decides what happens.  One part: the root field named by the key
    receives the row's value and no other root field changes.  Two parts
    a.b, the template holding a mapping under a: that mapping receives the
    value under b, its other fields and the other root fields stay.  More
    than two parts: the merge ends in the exit of line 139, filed as
    ExcessiveNestingDepth, whatever the value and the template. *)
Theorem customise_dispatch_on_depth
  (templateJson current : pyval) (before after : dict)
  (key : pykey) (value : pyval) :
  customiseJsonFromCsvRow templateJson before = Ok current ->
  let parts := split "." (str key) in
  let row := before ++ (key, value) :: after in
  (List.length parts = 1 -> forall d, current = PDict d ->
     exists d',
       customiseJsonFromCsvRow templateJson row
         = customiseJsonFromCsvRow (PDict d') after
       /\ dict_get key d' = Some value
       /\ forall k, k <> key -> dict_get k d' = dict_get k d)
  /\ (forall a b, parts = [a; b] -> forall d inner,
        current = PDict d -> dict_get (KStr a) d = Some (PDict inner) ->
        exists d' inner',
          customiseJsonFromCsvRow templateJson row
            = customiseJsonFromCsvRow (PDict d') after
          /\ dict_get (KStr a) d' = Some (PDict inner')
          /\ dict_get (KStr b) inner' = Some value
          /\ (forall k, k <> KStr b -> dict_get k inner' = dict_get k inner)
          /\ (forall k, k <> KStr a -> dict_get k d' = dict_get k d))
  /\ (2 < List.length parts ->
        customiseJsonFromCsvRow templateJson row = Fail (SystemExit MaximumDepth)
        /\ category (SystemExit MaximumDepth) = Some ExcessiveNestingDepth).
Proof.
  intros Hbefore parts row. subst parts row.
  rewrite (customise_item _ _ _ after key value Hbefore).
  repeat split.
  - intros Hlen d ->. rewrite (override_one _ _ _ Hlen). simpl.
    exists (dict_set key value d). repeat split.
    + apply dict_get_set_same.
    + intros k Hk. now apply dict_get_set_other.
  - intros a b Hparts d inner -> Hinner.
    rewrite (override_two _ _ _ _ _ Hparts). simpl. rewrite Hinner. simpl.
    exists (dict_set (KStr a) (PDict (dict_set (KStr b) value inner)) d),
           (dict_set (KStr b) value inner).
    repeat split.
    + apply dict_get_set_same.
    + apply dict_get_set_same.
    + intros k Hk. now apply dict_get_set_other.
    + intros k Hk. now apply dict_get_set_other.
  - now rewrite (override_deep _ _ _ H).
Qed.

Lemma customise_dispatch_on_depth_witness :
  customiseJsonFromCsvRow Sample.template [] = Ok Sample.template
  /\ exists d' inner',
       customiseJsonFromCsvRow Sample.template
         [(KStr "transmitter.lat", PStr "5.5"); (KStr "site", PStr "A")]
         = customiseJsonFromCsvRow (PDict d') [(KStr "site", PStr "A")]
       /\ dict_get (KStr "transmitter") d' = Some (PDict inner')
       /\ dict_get (KStr "lat") inner' = Some (PStr "5.5").
Proof.
  split; [reflexivity|].
  destruct (customise_dispatch_on_depth Sample.template Sample.template []
              [(KStr "site", PStr "A")] (KStr "transmitter.lat") (PStr "5.5")
              eq_refl) as [_ [Htwo _]].
  destruct (Htwo "transmitter" "lat" eq_refl _ _ eq_refl eq_refl)
    as [d' [inner' [H1 [H2 [H3 _]]]]].
  exists d', inner'. auto.
Defined.

(** C3, as amended: for a two-part key a.b the value is stored under
    template[a][b] when template[a] is a mapping.  When the key a is absent
    the merge ends in a KeyError, and when template[a] is present but no
    mapping (or the template itself is none) in a TypeError; both escape
    uncaught and fall under no category of the taxonomy. *)
Theorem two_part_override_outcomes
  (templateJson current : pyval) (before after : dict)
  (key : pykey) (value : pyval) (a b : string) :
  customiseJsonFromCsvRow templateJson before = Ok current ->
  split "." (str key) = [a; b] ->
  let row := before ++ (key, value) :: after in
  (forall d inner, current = PDict d -> dict_get (KStr a) d = Some (PDict inner) ->
     customiseJsonFromCsvRow templateJson row =
     customiseJsonFromCsvRow
       (PDict (dict_set (KStr a) (PDict (dict_set (KStr b) value inner)) d)) after)
  /\ (forall d, current = PDict d -> dict_get (KStr a) d = None ->
        customiseJsonFromCsvRow templateJson row = Fail (Uncaught KeyError))
  /\ (forall d x, current = PDict d -> dict_get (KStr a) d = Some x ->
        (forall inner, x <> PDict inner) ->
        customiseJsonFromCsvRow templateJson row = Fail (Uncaught TypeError))
  /\ ((forall d, current <> PDict d) ->
        customiseJsonFromCsvRow templateJson row = Fail (Uncaught TypeError))
  /\ category (Uncaught KeyError) = None
  /\ category (Uncaught TypeError) = None.
Proof.
  intros Hbefore Hparts row. subst row.
  rewrite (customise_item _ _ _ after key value Hbefore).
  rewrite (override_two _ _ _ _ _ Hparts).
  repeat split.
  - intros d inner -> Hinner. simpl. now rewrite Hinner.
  - intros d -> Hnone. simpl. now rewrite Hnone.
  - intros d x -> Hx Hnot. simpl. rewrite Hx.
    destruct x; try reflexivity. now destruct (Hnot d0).
  - intros Hnot. destruct current; try reflexivity. now destruct (Hnot d).
Qed.

Lemma two_part_override_outcomes_witness :
  customiseJsonFromCsvRow (PDict []) [] = Ok (PDict [])
  /\ split "." (str (KStr "transmitter.lat")) = ["transmitter"; "lat"]
  /\ customiseJsonFromCsvRow (PDict []) [(KStr "transmitter.lat", PStr "5.5")]
     = Fail (Uncaught KeyError).
Proof.
  split; [reflexivity|]. split; [reflexivity|].
  destruct (two_part_override_outcomes (PDict []) (PDict []) [] []
              (KStr "transmitter.lat") (PStr "5.5") "transmitter" "lat"
              eq_refl eq_refl) as [_ [Hkey _]].
  exact (Hkey [] eq_refl eq_refl).
Defined.

(** C3, as stated, fails: with the parent key absent the merge ends in an
    uncaught KeyError, with a parent that is a number in an uncaught
    TypeError; neither is an InvalidOverridePath failure. *)
Lemma override_without_parent_counterexample :
  customiseJsonFromCsvRow (PDict []) [(KStr "transmitter.lat", PStr "5.5")]
    = Fail (Uncaught KeyError)
  /\ customiseJsonFromCsvRow (PDict [(KStr "transmitter", PFloat 1.0)])
       [(KStr "transmitter.lat", PStr "5.5")]
    = Fail (Uncaught TypeError)
  /\ category (Uncaught KeyError) <> Some InvalidOverridePath
  /\ category (Uncaught TypeError) <> Some InvalidOverridePath
  /\ ~ (forall (template : pyval) (key : pykey) (value : pyval) (a b : string),
          split "." (str key) = [a; b] ->
          (forall inner, getitem template (KStr a) <> Ok (PDict inner)) ->
          exists f,
            customiseJsonFromCsvRow template [(key, value)] = Fail f
            /\ category f = Some InvalidOverridePath).
Proof.
  repeat split; try reflexivity; try discriminate.
  intros H.
  destruct (H (PDict []) (KStr "transmitter.lat") (PStr "5.5")
              "transmitter" "lat" eq_refl) as [f [Hf Hc]].
  - intros inner. discriminate.
  - simpl in Hf. injection Hf as <-. discriminate.
Qed.

(** C8: merging the row [{"transmitter.lat": "5.5"}], as read from a CSV
    file with that header and that one data row, into the template
    [{"transmitter": {"lat": 1.0, "lon": 2.0}}] stores the string "5.5"
    itself under transmitter.lat; transmitter.lon keeps its value 2.0 and so
    does every other field, nested or at the root; the merged dictionary is
    the body of the one request that is sent. *)
Theorem transmitter_lat_example :
  let row := [(KStr "transmitter.lat", PStr "5.5")] in
  let merged :=
    PDict [(KStr "transmitter",
            PDict [(KStr "lat", PStr "5.5"); (KStr "lon", PFloat 2.0)])] in
  Csv.DictReader [["transmitter.lat"]; ["5.5"]] = [row]
  /\ customiseJsonFromCsvRow Sample.template row = Ok merged
  /\ (exists transmitter before,
        getitem merged (KStr "transmitter") = Ok transmitter
        /\ getitem Sample.template (KStr "transmitter") = Ok before
        /\ getitem transmitter (KStr "lat") = Ok (PStr "5.5")
        /\ getitem transmitter (KStr "lon") = Ok (PFloat 2.0)
        /\ getitem before (KStr "lon") = Ok (PFloat 2.0)
        /\ forall k, k <> KStr "lat" -> getitem transmitter k = getitem before k)
  /\ (forall k, k <> KStr "transmitter" ->
        getitem merged k = getitem Sample.template k)
  /\ bodies (events (snd (run (Some "area") (Sample.args (Some "/data/in.csv") false)
               (Sample.env Sample.template [["transmitter.lat"]; ["5.5"]] []))))
     = [merged].
Proof.
  cbv zeta. repeat split.
  - eexists. eexists. repeat split.
    intros k Hk. simpl.
    rewrite (key_eqb_neq k (KStr "lat") Hk). reflexivity.
  - intros k Hk. simpl.
    rewrite (key_eqb_neq k (KStr "transmitter") Hk). reflexivity.
Qed.

(** ** The API key *)

(** C4: the API key passes exactly when splitting it on the dash gives two
    parts, the first numeric and the second 40 characters long; otherwise
    the process exits with one of the three messages of lines 148-154, all
    filed as InvalidApiKeyFormat.  The key 12345 followed by a 40-character
    token passes, the key 12345-short and a key with the user part abc are
    refused. *)
Theorem validateApiKey_accepts_iff (args : arguments) (st : state) :
  (validateApiKey args st = (Ok tt, st) <->
     exists uid token,
       split "-" (api_key args) = [uid; token]
       /\ isnumeric uid = true
       /\ String.length token = 40)
  /\ (validateApiKey args st = (Ok tt, st)
      \/ exists f, validateApiKey args st = (Fail f, st)
                   /\ category f = Some InvalidApiKeyFormat)
  /\ validateApiKey
       (Sample.keyed "12345-abcdefabcdefabcdefabcdefabcdefabcdefabcd" None false) st
     = (Ok tt, st)
  /\ validateApiKey (Sample.keyed "12345-short" None false) st
     = (Fail (SystemExit ApiKeyToken), st)
  /\ validateApiKey
       (Sample.keyed "abc-abcdefabcdefabcdefabcdefabcdefabcdefabcd" None false) st
     = (Fail (SystemExit ApiKeyUid), st).
Proof.
  split; [|split; [|repeat split]].
  - unfold validateApiKey.
    destruct (split "-" (api_key args)) as [|uid [|token [|x l]]] eqn:E; simpl.
    1, 2, 4: split; [discriminate | intros [u [t [H _]]]; discriminate].
    destruct (isnumeric uid) eqn:Hn; simpl.
    + destruct (Nat.eqb (String.length token) 40) eqn:Hl; simpl.
      * split; [|reflexivity]. intros _. exists uid, token.
        apply Nat.eqb_eq in Hl. auto.
      * split; [discriminate|]. intros [u [t [H [_ Ht]]]].
        injection H as <- <-. apply Nat.eqb_neq in Hl. contradiction.
    + split; [discriminate|]. intros [u [t [H [Hu _]]]].
      injection H as <- <-. congruence.
  - unfold validateApiKey.
    destruct (negb (Nat.eqb (List.length (split "-" (api_key args))) 2));
      [right; eexists; split; reflexivity|].
    destruct (negb (isnumeric (nth 0 (split "-" (api_key args)) "")));
      [right; eexists; split; reflexivity|].
    destruct (negb (Nat.eqb (String.length (nth 1 (split "-" (api_key args)) "")) 40));
      [right; eexists; split; reflexivity|].
    left. reflexivity.
Qed.

(** ** Requests *)

Lemma validateApiKey_state (args : arguments) (st : state) :
  validateApiKey args st = (fst (validateApiKey args initial), st).
Proof.
  unfold validateApiKey.
  repeat match goal with |- context [if ?b then _ else _] => destruct b end;
    reflexivity.
Qed.

Lemma validateRequestType_refuses (rt : option string) (args : arguments) (st : state) :
  rt <> Some "area" ->
  validateRequestType rt args st = (Fail (SystemExit UnsupportedRequest), st).
Proof.
  intros Hrt. unfold validateRequestType. destruct rt as [s|]; [|reflexivity].
  destruct (String.eqb s "") eqn:E0; simpl; [reflexivity|].
  destruct (String.eqb s "area") eqn:E; simpl; [|reflexivity].
  apply String.eqb_eq in E. subst s. now destruct Hrt.
Qed.

Lemma checkHttpResponse_200 (text : string) (st : state) :
  checkHttpResponse 200 text st = (Ok tt, st).
Proof. reflexivity. Qed.

Lemma checkHttpResponse_error (code : Z) (text : string) (st : state) :
  code <> 200%Z ->
  checkHttpResponse code text st =
  (Fail (SystemExit (http_exit code)),
   {| jsonTemplate := jsonTemplate st;
      events := events st ++ [Print (HttpErrorOccurred code); Print (Text text)] |}).
Proof.
  intros H. unfold checkHttpResponse.
  rewrite (proj2 (Z.eqb_neq code 200) H). simpl.
  unfold bind, emit, exit, raise. simpl. now rewrite <- app_assoc.
Qed.

Lemma http_exit_category (code : Z) :
  In (category (SystemExit (http_exit code)))
     [Some BadRequest; Some Unauthorized; Some Forbidden; Some ServerError;
      Some UnknownHttpError].
Proof.
  unfold http_exit.
  repeat match goal with |- context [if ?b then _ else _] => destruct b end;
    simpl; tauto.
Qed.

Lemma posts_running_log (args : arguments) (rt : string) :
  posts (running_log args rt) = [].
Proof. unfold running_log. now destruct (verbose args). Qed.

(** What [__calculate] does when the service answers. *)
Lemma calculate_response (rt : string) (args : arguments) (env : environment)
  (jsonData : pyval) (st : state) (code : Z) (text : string) :
  server env (List.length (posts (events st))) (endpoint args rt) jsonData
    = Response code text ->
  calculate (Some rt) args env jsonData st =
  if Z.eqb code 200 then
    (Ok tt,
     {| jsonTemplate := jsonTemplate st;
        events := events st ++ running_log args rt
                    ++ [request args rt jsonData] ++ echo_log args text |})
  else
    (Fail (SystemExit (http_exit code)),
     {| jsonTemplate := jsonTemplate st;
        events := events st ++ running_log args rt
                    ++ [request args rt jsonData]
                    ++ [Print (HttpErrorOccurred code); Print (Text text)] |}).
Proof.
  intros Hserver.
  unfold calculate, verboseLog, when, post, running_log, echo_log, request, bind.
  destruct (verbose args) eqn:V; simpl;
    rewrite ?posts_app; simpl; rewrite ?app_nil_r, Hserver;
    unfold checkHttpResponse; destruct (Z.eqb code 200) eqn:E; simpl;
    unfold bind, emit, exit, raise; simpl;
    rewrite <- ?app_assoc, ?app_nil_r; reflexivity.
Qed.

(** Whatever the service answers, [__calculate] leaves the template as it
    is and sends exactly one request, whose body is its argument. *)
Lemma calculate_sends (rt : string) (args : arguments) (env : environment)
  (jsonData : pyval) (st : state) :
  jsonTemplate (snd (calculate (Some rt) args env jsonData st)) = jsonTemplate st
  /\ bodies (events (snd (calculate (Some rt) args env jsonData st)))
     = bodies (events st) ++ [jsonData].
Proof.
  destruct (server env (List.length (posts (events st))) (endpoint args rt) jsonData)
    as [code text| |] eqn:Hs.
  - rewrite (calculate_response _ _ _ _ _ _ _ Hs).
    unfold running_log, echo_log, request.
    destruct (Z.eqb code 200), (verbose args); simpl; split; try reflexivity;
      rewrite !bodies_app; simpl; now rewrite ?app_nil_r.
  - unfold calculate, verboseLog, when, post, bind.
    destruct (verbose args); simpl;
      rewrite ?posts_app; simpl; rewrite ?app_nil_r, Hs; simpl; split;
      try reflexivity; rewrite !bodies_app; simpl; now rewrite ?app_nil_r.
  - unfold calculate, verboseLog, when, post, bind.
    destruct (verbose args); simpl;
      rewrite ?posts_app; simpl; rewrite ?app_nil_r, Hs; simpl; split;
      try reflexivity; rewrite !bodies_app; simpl; now rewrite ?app_nil_r.
Qed.

(** One turn of the loop over the rows. *)
Lemma forRows_step (rt : option string) (args : arguments) (env : environment)
  (row : dict) (rest : list dict) (st : state) (newJsonData : pyval) :
  customiseJsonFromCsvRow (jsonTemplate st) row = Ok newJsonData ->
  forRows rt args env (row :: rest) st =
  bind (calculate rt args env newJsonData) (fun _ => forRows rt args env rest)
       {| jsonTemplate := newJsonData; events := events st |}.
Proof.
  intros H. simpl. unfold bind at 1. unfold getTemplate.
  unfold bind at 1. unfold lift. rewrite H.
  unfold bind at 1. unfold setTemplate. reflexivity.
Qed.

(** ** The status classifier and the batch *)

(** C5: a response with status 200 passes the classifier unchanged and the
    loop goes on with the remaining rows; any other status makes the
    classifier print the status line and then the raw body of the response
    and exit with one of the five HTTP diagnostics; in the batch this ends
    the run at once: the request of the failing row is the last event of
    kind request, whatever rows remain. *)
Theorem first_failure_aborts_batch
  (rt : string) (args : arguments) (env : environment) (st : state)
  (row : dict) (rest : list dict) (newJsonData : pyval) (code : Z) (text : string) :
  customiseJsonFromCsvRow (jsonTemplate st) row = Ok newJsonData ->
  server env (List.length (posts (events st))) (endpoint args rt) newJsonData
    = Response code text ->
  let sent := events st ++ running_log args rt ++ [request args rt newJsonData] in
  (forall body st0, checkHttpResponse 200 body st0 = (Ok tt, st0))
  /\ (forall c body st0, c <> 200%Z ->
        checkHttpResponse c body st0 =
        (Fail (SystemExit (http_exit c)),
         {| jsonTemplate := jsonTemplate st0;
            events := events st0 ++ [Print (HttpErrorOccurred c); Print (Text body)] |})
        /\ In (category (SystemExit (http_exit c)))
              [Some BadRequest; Some Unauthorized; Some Forbidden;
               Some ServerError; Some UnknownHttpError])
  /\ (code = 200%Z ->
        forRows (Some rt) args env (row :: rest) st =
        forRows (Some rt) args env rest
          {| jsonTemplate := newJsonData; events := sent ++ echo_log args text |})
  /\ (code <> 200%Z ->
        forRows (Some rt) args env (row :: rest) st =
        (Fail (SystemExit (http_exit code)),
         {| jsonTemplate := newJsonData;
            events := sent ++ [Print (HttpErrorOccurred code); Print (Text text)] |})
        /\ posts (sent ++ [Print (HttpErrorOccurred code); Print (Text text)])
           = posts (events st) ++ [request args rt newJsonData]).
Proof.
  intros Hrow Hserver sent. subst sent.
  split; [intros; apply checkHttpResponse_200|].
  split; [intros c body st0 Hc; split;
          [now apply checkHttpResponse_error | apply http_exit_category]|].
  split.
  - intros ->. rewrite (forRows_step _ _ _ _ _ _ _ Hrow). unfold bind at 1.
    rewrite (calculate_response rt args env newJsonData
               {| jsonTemplate := newJsonData; events := events st |} 200 text Hserver).
    simpl. now rewrite <- !app_assoc.
  - intros Hcode. split.
    + rewrite (forRows_step _ _ _ _ _ _ _ Hrow). unfold bind at 1.
      rewrite (calculate_response rt args env newJsonData
                 {| jsonTemplate := newJsonData; events := events st |} code text Hserver).
      rewrite (proj2 (Z.eqb_neq code 200) Hcode). simpl.
      now rewrite <- !app_assoc.
    + rewrite !posts_app, posts_running_log. simpl. now rewrite app_nil_r.
Qed.

Lemma first_failure_aborts_batch_witness :
  let args := Sample.args (Some "/data/in.csv") false in
  let env := Sample.env Sample.template [] [401%Z] in
  let row := [(KStr "transmitter.lat", PStr "5.5")] in
  let later := [(KStr "transmitter.lat", PStr "6.5")] in
  let merged :=
    PDict [(KStr "transmitter",
            PDict [(KStr "lat", PStr "5.5"); (KStr "lon", PFloat 2.0)])] in
  forRows (Some "area") args env [row; later]
    {| jsonTemplate := Sample.template; events := [] |}
  = (Fail (SystemExit Http401),
     {| jsonTemplate := merged;
        events := [request args "area" merged;
                   Print (HttpErrorOccurred 401); Print (Text "body")] |}).
Proof.
  cbv zeta.
  destruct (first_failure_aborts_batch "area" (Sample.args (Some "/data/in.csv") false)
              (Sample.env Sample.template [] [401%Z])
              {| jsonTemplate := Sample.template; events := [] |}
              [(KStr "transmitter.lat", PStr "5.5")]
              [[(KStr "transmitter.lat", PStr "6.5")]]
              _ 401 "body" eq_refl eq_refl) as [_ [_ [_ Hfail]]].
  destruct (Hfail ltac:(discriminate)) as [Hrun _].
  exact Hrun.
Defined.

(** ** The request type *)

(** C7: with a request type other than "area", unset included, the run
    ends in the exit of line 231, filed as UnsupportedRequestType, and no
    request has been sent; the request type "area" passes the check. *)
Theorem unsupported_request_type_stops_run
  (requestType : option string) (args : arguments) (env : environment) :
  requestType <> Some "area" ->
  (exists st', run requestType args env = (Fail (SystemExit UnsupportedRequest), st')
               /\ posts (events st') = [])
  /\ category (SystemExit UnsupportedRequest) = Some UnsupportedRequestType
  /\ forall st, fst (validateRequestType (Some "area") args st) = Ok tt.
Proof.
  intros Hrt. split; [|split; [reflexivity|]].
  - unfold run, init, startup.
    unfold bind, when, verboseLog, when, emit.
    destruct (verbose args), (strict_ssl args); simpl;
      rewrite (validateRequestType_refuses _ _ _ Hrt);
      eexists; split; reflexivity.
  - intros st. unfold validateRequestType, verboseLog, when. simpl.
    now destruct (verbose args).
Qed.

Lemma unsupported_request_type_stops_run_witness :
  Some "elevation" <> Some "area"
  /\ fst (run (Some "elevation") (Sample.args None false)
            (Sample.env Sample.template [] []))
     = Fail (SystemExit UnsupportedRequest).
Proof.
  split; [discriminate|].
  destruct (unsupported_request_type_stops_run (Some "elevation")
              (Sample.args None false) (Sample.env Sample.template [] [])
              ltac:(discriminate)) as [[st' [Hrun _]] _].
  now rewrite Hrun.
Defined.

(** ** Start-up *)

(** When the validations before the CSV file pass, the start-up amounts to
    reading the CSV file in a state that holds the loaded template and in
    which nothing has been sent. *)
Lemma startup_preflight (rt : option string) (args : arguments)
  (env : environment) (template : pyval) :
  preflight_ok rt args env template ->
  exists evs,
    posts evs = []
    /\ startup rt args env initial
       = validateCsv args env {| jsonTemplate := template; events := evs |}.
Proof.
  intros (Hrt & Hkey & Ht & Hc & Ho & Hp & Hf).
  assert (Hk : forall st, validateApiKey args st = (Ok tt, st)).
  { intros st. now rewrite validateApiKey_state, Hkey. }
  subst rt.
  unfold startup, validateRequestType, validateFileAndDirectoryPermissions,
    validateJsonTemplate, verboseLog, when.
  rewrite Ht, Hp, Hf. simpl.
  unfold bind.
  destruct (verbose args), (strict_ssl args); simpl; rewrite Hk;
    destruct (csv_given args); simpl; rewrite ?(Hc eq_refl); simpl;
    destruct (output_exists env); simpl;
    try (destruct Ho as [Ho|Ho]; [discriminate|]; rewrite Ho; simpl);
    eexists; (split; [|reflexivity]); reflexivity.
Qed.

Lemma validateCsv_not_given (args : arguments) (env : environment) (st : state) :
  csv_given args = false -> validateCsv args env st = (Ok None, st).
Proof. intros H. unfold validateCsv. now rewrite H. Qed.

Lemma validateCsv_given (args : arguments) (env : environment) (st : state)
  (records : list Csv.record) :
  csv_given args = true -> csv_input env = CsvRecords records ->
  validateCsv args env st =
  match check_rows (Csv.DictReader records) [] with
  | inr returnList => (Ok (Some returnList), st)
  | inl e => (Fail (SystemExit (CsvAttribute e)), st)
  end.
Proof.
  intros H1 H2. unfold validateCsv. rewrite H1, H2.
  now destruct (check_rows (Csv.DictReader records) []).
Qed.

(** A run whose start-up ends in [st] with no row to process sends the
    template of [st] and nothing else. *)
Lemma run_single_request (rt : string) (args : arguments) (env : environment)
  (csvInputList : option (list dict)) (st : state) :
  startup (Some rt) args env initial = (Ok csvInputList, st) ->
  posts (events st) = [] ->
  csv_given args && has_rows csvInputList = false ->
  bodies (events (snd (run (Some rt) args env))) = [jsonTemplate st].
Proof.
  intros Hstart Hposts Hrows.
  unfold run, init. unfold bind at 1. rewrite Hstart.
  unfold dispatch. rewrite Hrows.
  unfold bind at 1. unfold bind at 1. unfold getTemplate.
  destruct (calculate_sends rt args env (jsonTemplate st) st) as [_ Hb].
  rewrite (posts_nil_bodies _ Hposts) in Hb. simpl in Hb.
  destruct (calculate (Some rt) args env (jsonTemplate st) st) as [[[]|f] st'];
    simpl in *; exact Hb.
Qed.

(** C9: merging an empty row returns the template as it is, and a run
    without a CSV file, once its validations have passed, sends exactly one
    request, whose body is the template as loaded; the template is still
    that value when the run ends. *)
Theorem no_override_sends_template
  (requestType : option string) (args : arguments) (env : environment)
  (template : pyval) :
  preflight_ok requestType args env template ->
  csv_given args = false ->
  (forall t, customiseJsonFromCsvRow t [] = Ok t)
  /\ bodies (events (snd (run requestType args env))) = [template].
Proof.
  intros Hpre Hcsv. split; [reflexivity|].
  destruct (startup_preflight _ _ _ _ Hpre) as [evs [Hposts Hstart]].
  rewrite (validateCsv_not_given _ _ _ Hcsv) in Hstart.
  destruct Hpre as [-> _].
  apply (run_single_request "area" args env None
           {| jsonTemplate := template; events := evs |} Hstart Hposts).
  now rewrite Hcsv.
Qed.

Lemma sample_preflight (csv : option string) (v : bool)
  (records : list Csv.record) (codes : list Z) :
  preflight_ok (Some "area") (Sample.args csv v)
    (Sample.env Sample.template records codes) Sample.template.
Proof. unfold preflight_ok. simpl. tauto. Qed.

Lemma no_override_sends_template_witness :
  bodies (events (snd (run (Some "area") (Sample.args None true)
                         (Sample.env Sample.template [] [500%Z]))))
  = [Sample.template].
Proof.
  exact (proj2 (no_override_sends_template (Some "area") (Sample.args None true)
                  (Sample.env Sample.template [] [500%Z]) Sample.template
                  (sample_preflight None true [] [500%Z]) eq_refl)).
Defined.

(** C10: when a CSV file is given whose only record is the header, the
    validation of the file succeeds with the empty list of rows and the run,
    once the earlier validations have passed, takes the branch of a run
    without rows: it sends exactly one request, whose body is the template
    as loaded. *)
Theorem header_only_csv_sends_template
  (requestType : option string) (args : arguments) (env : environment)
  (template : pyval) (header : Csv.record) :
  preflight_ok requestType args env template ->
  csv_given args = true ->
  csv_input env = CsvRecords [header] ->
  (forall st, validateCsv args env st = (Ok (Some []), st))
  /\ bodies (events (snd (run requestType args env))) = [template].
Proof.
  intros Hpre Hcsv Hrec.
  assert (Hv : forall st, validateCsv args env st = (Ok (Some []), st)).
  { intros st. now rewrite (validateCsv_given _ _ _ _ Hcsv Hrec). }
  split; [exact Hv|].
  destruct (startup_preflight _ _ _ _ Hpre) as [evs [Hposts Hstart]].
  rewrite Hv in Hstart.
  destruct Hpre as [-> _].
  apply (run_single_request "area" args env (Some [])
           {| jsonTemplate := template; events := evs |} Hstart Hposts).
  now rewrite Hcsv.
Qed.

Lemma header_only_csv_sends_template_witness :
  bodies (events (snd (run (Some "area") (Sample.args (Some "/data/in.csv") false)
                         (Sample.env Sample.template [["transmitter.lat"]] []))))
  = [Sample.template].
Proof.
  exact (proj2 (header_only_csv_sends_template (Some "area")
                  (Sample.args (Some "/data/in.csv") false)
                  (Sample.env Sample.template [["transmitter.lat"]] [])
                  Sample.template ["transmitter.lat"]
                  (sample_preflight _ _ _ _) eq_refl eq_refl)).
Defined.

(** ** The CSV file *)

Lemma check_item_empty (key : pykey) (value : pyval) :
  check_item (key, value) = Some EmptyHeaderOrValue
  <-> key_truthy key = false \/ truthy value = false.
Proof.
  unfold check_item.
  destruct (key_truthy key), (truthy value); simpl;
    try (split; [intros _; auto | reflexivity]).
  destruct (Nat.ltb 2 (List.length (split "." (str key))));
    split; try discriminate; intros [H|H]; discriminate.
Qed.

Lemma check_item_depth (key : pykey) (value : pyval) (n : nat) :
  check_item (key, value) = Some (DepthExceeded n)
  <-> key_truthy key = true /\ truthy value = true
      /\ n = List.length (split "." (str key)) /\ 2 < n.
Proof.
  unfold check_item.
  destruct (key_truthy key), (truthy value); simpl;
    try (split; [discriminate | intros (H1 & H2 & _); discriminate]).
  destruct (Nat.ltb 2 (List.length (split "." (str key)))) eqn:E.
  - apply Nat.ltb_lt in E. split.
    + intros H. injection H as <-. auto.
    + intros (_ & _ & -> & _). reflexivity.
  - apply Nat.ltb_ge in E. split; [discriminate|].
    intros (_ & _ & -> & H). lia.
Qed.

Lemma check_row_clean (row : dict) :
  check_row row = None <-> forall item, In item row -> check_item item = None.
Proof.
  induction row as [|item row IH]; simpl.
  - split; [intros _ i [] | reflexivity].
  - destruct (check_item item) eqn:E.
    + split; [discriminate|]. intros H.
      rewrite <- E. apply H. now left.
    + rewrite IH. split.
      * intros H i [<-|Hi]; auto.
      * intros H i Hi. apply H. now right.
Qed.

Lemma check_row_first (before after : dict) (item : pykey * pyval)
  (e : attribute_error) :
  (forall i, In i before -> check_item i = None) ->
  check_item item = Some e ->
  check_row (before ++ item :: after) = Some e.
Proof.
  intros Hb Hi. induction before as [|i before IH]; simpl.
  - now rewrite Hi.
  - rewrite (Hb i (or_introl eq_refl)). apply IH.
    intros j Hj. apply Hb. now right.
Qed.

Lemma check_rows_clean (rows acc : list dict) :
  (forall row, In row rows -> check_row row = None) ->
  check_rows rows acc = inr (acc ++ rows).
Proof.
  revert acc. induction rows as [|row rows IH]; intros acc H; simpl.
  - now rewrite app_nil_r.
  - rewrite (H row (or_introl eq_refl)). rewrite IH.
    + now rewrite <- app_assoc.
    + intros r Hr. apply H. now right.
Qed.

Lemma check_rows_accepts (rows acc returnList : list dict) :
  check_rows rows acc = inr returnList ->
  returnList = acc ++ rows /\ forall row, In row rows -> check_row row = None.
Proof.
  revert acc. induction rows as [|row rows IH]; intros acc H; simpl in H.
  - injection H as <-. split; [now rewrite app_nil_r | intros r []].
  - destruct (check_row row) eqn:E; [discriminate|].
    destruct (IH _ H) as [-> Hall]. split.
    + now rewrite <- app_assoc.
    + intros r [<-|Hr]; auto.
Qed.

Lemma check_rows_first (before after acc : list dict) (row : dict)
  (e : attribute_error) :
  (forall r, In r before -> check_row r = None) ->
  check_row row = Some e ->
  check_rows (before ++ row :: after) acc = inl e.
Proof.
  revert acc. induction before as [|r before IH]; intros acc Hb Hr; simpl.
  - now rewrite Hr.
  - rewrite (Hb r (or_introl eq_refl)). apply IH; auto.
    intros r' Hr'. apply Hb. now right.
Qed.

(** ** Failures after the start-up *)

Lemma getitem_failure (o : pyval) (k : pykey) (f : failure) :
  getitem o k = Fail f -> csv_failure f = false.
Proof.
  destruct o; simpl; try (intros H; injection H as <-; reflexivity).
  destruct (dict_get k d); [discriminate|].
  intros H. injection H as <-. reflexivity.
Qed.

Lemma setitem_failure (o : pyval) (k : pykey) (v : pyval) (f : failure) :
  setitem o k v = Fail f -> csv_failure f = false.
Proof.
  destruct o; simpl; try discriminate; intros H; injection H as <-; reflexivity.
Qed.

Lemma override_failure (t : pyval) (key : pykey) (value : pyval) (f : failure) :
  override t key value = Fail f -> csv_failure f = false.
Proof.
  unfold override.
  destruct (Nat.eqb (List.length (split "." (str key))) 2).
  - destruct (getitem t _) as [inner|f0] eqn:G.
    + destruct (setitem inner _ value) as [inner'|f1] eqn:S1.
      * apply setitem_failure.
      * intros H. injection H as <-. eapply setitem_failure; eauto.
    + intros H. injection H as <-. eapply getitem_failure; eauto.
  - destruct (Nat.eqb (List.length (split "." (str key))) 1).
    + apply setitem_failure.
    + intros H. injection H as <-. reflexivity.
Qed.

Lemma customise_failure (t : pyval) (row : dict) (f : failure) :
  customiseJsonFromCsvRow t row = Fail f -> csv_failure f = false.
Proof.
  revert t. induction row as [|[k v] row IH]; intros t H; simpl in H.
  - discriminate.
  - destruct (override t k v) eqn:E; [eauto|].
    injection H as <-. eapply override_failure; eauto.
Qed.

Lemma http_exit_not_csv (code : Z) : csv_failure (SystemExit (http_exit code)) = false.
Proof.
  unfold http_exit.
  repeat match goal with |- context [if ?b then _ else _] => destruct b end;
    reflexivity.
Qed.

Lemma calculate_failure (rt : option string) (args : arguments) (env : environment)
  (jsonData : pyval) (st st' : state) (f : failure) :
  calculate rt args env jsonData st = (Fail f, st') -> csv_failure f = false.
Proof.
  unfold calculate, verboseLog, when, post, checkHttpResponse, bind, emit, exit, raise.
  destruct (verbose args), rt as [r|]; simpl;
    try (intros H; inversion H; reflexivity);
    match goal with |- context [server ?e ?n ?u ?j] => destruct (server e n u j) end;
    simpl; try (intros H; inversion H; reflexivity);
    destruct (Z.eqb status_code 200); simpl; intros H; inversion H;
    apply http_exit_not_csv.
Qed.

Lemma forRows_failure (rt : option string) (args : arguments) (env : environment)
  (rows : list dict) (st st' : state) (f : failure) :
  forRows rt args env rows st = (Fail f, st') -> csv_failure f = false.
Proof.
  revert st. induction rows as [|row rows IH]; intros st H; simpl in H.
  - discriminate.
  - unfold bind at 1, getTemplate in H. unfold bind at 1, lift in H.
    destruct (customiseJsonFromCsvRow (jsonTemplate st) row) as [t|f0] eqn:E.
    + unfold bind at 1, setTemplate in H. unfold bind at 1 in H.
      destruct (calculate rt args env t _) as [[[]|f1] st1] eqn:C.
      * eauto.
      * injection H as <- _. eapply calculate_failure; eauto.
    + injection H as <- _. eapply customise_failure; eauto.
Qed.

Lemma dispatch_failure (rt : option string) (args : arguments) (env : environment)
  (csvInputList : option (list dict)) (st st' : state) (f : failure) :
  dispatch rt args env csvInputList st = (Fail f, st') -> csv_failure f = false.
Proof.
  unfold dispatch.
  destruct (csv_given args && has_rows csvInputList).
  - apply forRows_failure.
  - unfold bind, getTemplate. apply calculate_failure.
Qed.

(** A run that ends in a failure of the CSV validation has sent nothing. *)
Lemma csv_failure_before_requests (rt : option string) (args : arguments)
  (env : environment) (f : failure) :
  fst (run rt args env) = Fail f -> csv_failure f = true ->
  posts (events (snd (run rt args env))) = [].
Proof.
  unfold run, init, bind.
  destruct (quiet_startup rt args env initial) as [evs [Hev Hposts]].
  destruct (startup rt args env initial) as [[c|f0] st1]; simpl in *.
  - destruct (dispatch rt args env c st1) as [[[]|f1] st2] eqn:D; simpl.
    + intros H. injection H as <-. discriminate.
    + intros H. injection H as <-.
      rewrite (dispatch_failure _ _ _ _ _ _ _ D). discriminate.
  - intros _ _. now rewrite Hev.
Qed.

(** C6, as amended: the rows are those [DictReader] yields for the data
    records, so a file without data rows passes whatever its header.  The
    rows are checked in order and the items of a row in column order, each
    item first for an empty header or value and then for the depth of its
    header.  The validation returns the rows, in order, exactly when no item
    offends; otherwise it exits with the error of the first offending item,
    filed as MalformedCsvRow when that item has an empty header or value and
    as ExcessiveNestingDepth when its header has more than two parts.  A run
    that ends in either failure has sent no request. *)
Theorem validateCsv_first_offence
  (args : arguments) (env : environment) (records : list Csv.record) (st : state) :
  csv_given args = true ->
  csv_input env = CsvRecords records ->
  let rows := Csv.DictReader records in
  (validateCsv args env st = (Ok (Some rows), st)
   <-> forall row item, In row rows -> In item row -> check_item item = None)
  /\ (validateCsv args env st = (Ok (Some rows), st)
      \/ exists e, validateCsv args env st = (Fail (SystemExit (CsvAttribute e)), st))
  /\ (forall before row_before after row_after item e,
        rows = before ++ (row_before ++ item :: row_after) :: after ->
        (forall r i, In r before -> In i r -> check_item i = None) ->
        (forall i, In i row_before -> check_item i = None) ->
        check_item item = Some e ->
        validateCsv args env st = (Fail (SystemExit (CsvAttribute e)), st))
  /\ (forall key value,
        check_item (key, value) = Some EmptyHeaderOrValue
        <-> key_truthy key = false \/ truthy value = false)
  /\ (forall key value n,
        check_item (key, value) = Some (DepthExceeded n)
        <-> key_truthy key = true /\ truthy value = true
            /\ n = List.length (split "." (str key)) /\ 2 < n)
  /\ category (SystemExit (CsvAttribute EmptyHeaderOrValue)) = Some MalformedCsvRow
  /\ (forall n, category (SystemExit (CsvAttribute (DepthExceeded n)))
                = Some ExcessiveNestingDepth)
  /\ (forall header, Csv.DictReader [header] = [])
  /\ (forall rt f, fst (run rt args env) = Fail f -> csv_failure f = true ->
        posts (events (snd (run rt args env))) = []).
Proof.
  intros Hcsv Hrec rows.
  rewrite (validateCsv_given _ _ _ _ Hcsv Hrec). fold rows.
  split.
  { split.
    - intros H row item Hrow Hitem.
      destruct (check_rows rows []) as [e|l] eqn:E; [discriminate|].
      destruct (check_rows_accepts _ _ _ E) as [_ Hall].
      exact (proj1 (check_row_clean row) (Hall row Hrow) item Hitem).
    - intros H. rewrite check_rows_clean; [reflexivity|].
      intros row Hrow. apply check_row_clean. intros item. now apply H. }
  split.
  { destruct (check_rows rows []) as [e|l] eqn:E.
    - right. now exists e.
    - left. destruct (check_rows_accepts _ _ _ E) as [-> _]. reflexivity. }
  split.
  { intros before row_before after row_after item e Hrows Hb Hrb Hitem.
    rewrite Hrows. rewrite (check_rows_first before after [] _ e); auto.
    - intros r Hr. apply check_row_clean. intros i. now apply Hb.
    - now apply check_row_first. }
  split; [apply check_item_empty|].
  split; [apply check_item_depth|].
  split; [reflexivity|].
  split; [reflexivity|].
  split; [reflexivity|].
  intros rt f. apply csv_failure_before_requests.
Qed.

Lemma validateCsv_first_offence_witness :
  let args := Sample.args (Some "/data/in.csv") false in
  let env := Sample.env Sample.template
               [["transmitter.lat"; "site"]; ["5.5"; "A"]; ["6.5"; ""]] [] in
  csv_given args = true
  /\ validateCsv args env initial
     = (Fail (SystemExit (CsvAttribute EmptyHeaderOrValue)), initial).
Proof.
  cbv zeta. split; [reflexivity|].
  destruct (validateCsv_first_offence (Sample.args (Some "/data/in.csv") false)
              (Sample.env Sample.template
                 [["transmitter.lat"; "site"]; ["5.5"; "A"]; ["6.5"; ""]] [])
              _ initial eq_refl eq_refl) as [_ [_ [Hfirst _]]].
  apply (Hfirst [[(KStr "transmitter.lat", PStr "5.5"); (KStr "site", PStr "A")]]
                [(KStr "transmitter.lat", PStr "6.5")] [] []
                (KStr "site", PStr "") EmptyHeaderOrValue eq_refl).
  - intros r i [<-|[]] [<-|[<-|[]]]; reflexivity.
  - intros i [<-|[]]; reflexivity.
  - reflexivity.
Defined.

(** C6, as stated, fails.  A file that holds only the header a.b.c passes
    the validation and a request is sent, although a header is deeper than
    two; so does a file that holds only an empty header.  With the header
    a.b.c,d and the record 1,(empty) the exit is the depth error although a
    value is empty, and with the header a.b.c and an empty value it is the
    error for an empty cell although the header is deeper than two. *)
Lemma csv_header_checks_counterexample :
  let args := Sample.args (Some "/data/in.csv") false in
  let env := fun records => Sample.env Sample.template records [] in
  validateCsv args (env [["a.b.c"]]) initial = (Ok (Some []), initial)
  /\ bodies (events (snd (run (Some "area") args (env [["a.b.c"]]))))
     = [Sample.template]
  /\ validateCsv args (env [[""]]) initial = (Ok (Some []), initial)
  /\ validateCsv args (env [["a.b.c"; "d"]; ["1"; ""]]) initial
     = (Fail (SystemExit (CsvAttribute (DepthExceeded 3))), initial)
  /\ category (SystemExit (CsvAttribute (DepthExceeded 3))) <> Some MalformedCsvRow
  /\ validateCsv args (env [["a.b.c"]; [""]]) initial
     = (Fail (SystemExit (CsvAttribute EmptyHeaderOrValue)), initial)
  /\ category (SystemExit (CsvAttribute EmptyHeaderOrValue))
     <> Some ExcessiveNestingDepth.
Proof. cbv zeta. repeat split; try reflexivity; discriminate. Qed.

(** ** The template across the rows *)

Lemma override_frame (t t' : pyval) (key k : pykey) (value : pyval) :
  override t key value = Ok t' -> root_key key <> k ->
  getitem t' k = getitem t k.
Proof.
  unfold override, root_key.
  destruct (Nat.eqb (List.length (split "." (str key))) 2) eqn:E2.
  - apply Nat.eqb_eq in E2. rewrite E2. simpl.
    destruct t as [| | | | | |d]; simpl; try discriminate.
    destruct (dict_get (KStr (nth 0 (split "." (str key)) "")) d) as [inner|];
      [|discriminate].
    destruct inner as [| | | | | |di]; simpl; try discriminate.
    intros H Hk. injection H as <-. simpl.
    rewrite dict_get_set_other; auto.
  - destruct (Nat.eqb (List.length (split "." (str key))) 1) eqn:E1; [|discriminate].
    destruct t as [| | | | | |d]; simpl; try discriminate.
    intros H Hk. injection H as <-. simpl.
    rewrite dict_get_set_other; auto.
Qed.

Lemma customise_frame (t merged : pyval) (row : dict) (k : pykey) :
  customiseJsonFromCsvRow t row = Ok merged ->
  (forall key value, In (key, value) row -> root_key key <> k) ->
  getitem merged k = getitem t k.
Proof.
  revert t. induction row as [|[key value] row IH]; intros t H Hk; simpl in H.
  - now injection H as <-.
  - destruct (override t key value) as [t1|] eqn:E; [|discriminate].
    rewrite (IH t1 H).
    + eapply override_frame; eauto. apply (Hk key value). now left.
    + intros key' value' Hin. apply (Hk key' value'). now right.
Qed.

(** C1, as amended: the template is not cloned.  Building the request for
    a row updates the loaded object in place: the request is sent and the
    remaining rows are processed in a state whose template is the data just
    built; sending a request leaves the template as it is and sends exactly
    the data it was given; hence after a response with status 200 the
    request for the next row is built from the data sent for this one, and
    in it every root field that no key of the next row addresses has the
    value it had in the data sent for this row, overrides included. *)
Theorem template_updated_in_place
  (rt : string) (args : arguments) (env : environment) (st : state)
  (row : dict) (rest : list dict) (newJsonData : pyval) :
  customiseJsonFromCsvRow (jsonTemplate st) row = Ok newJsonData ->
  forRows (Some rt) args env (row :: rest) st
    = bind (calculate (Some rt) args env newJsonData)
           (fun _ => forRows (Some rt) args env rest)
           {| jsonTemplate := newJsonData; events := events st |}
  /\ (forall st0 jsonData,
        jsonTemplate (snd (calculate (Some rt) args env jsonData st0))
          = jsonTemplate st0
        /\ bodies (events (snd (calculate (Some rt) args env jsonData st0)))
           = bodies (events st0) ++ [jsonData])
  /\ (forall next more merged text,
        server env (List.length (posts (events st))) (endpoint args rt) newJsonData
          = Response 200 text ->
        customiseJsonFromCsvRow newJsonData next = Ok merged ->
        forRows (Some rt) args env (row :: next :: more) st
          = bind (calculate (Some rt) args env merged)
                 (fun _ => forRows (Some rt) args env more)
                 {| jsonTemplate := merged;
                    events := events st ++ running_log args rt
                                ++ [request args rt newJsonData]
                                ++ echo_log args text |})
  /\ (forall next merged k,
        customiseJsonFromCsvRow newJsonData next = Ok merged ->
        (forall key value, In (key, value) next -> root_key key <> k) ->
        getitem merged k = getitem newJsonData k).
Proof.
  intros Hrow.
  split; [now apply forRows_step|].
  split; [intros st0 jsonData; apply calculate_sends|].
  split.
  - intros next more merged text Hserver Hnext.
    rewrite (forRows_step _ _ _ _ _ _ _ Hrow). unfold bind at 1.
    rewrite (calculate_response rt args env newJsonData
               {| jsonTemplate := newJsonData; events := events st |} 200 text Hserver).
    simpl Z.eqb. cbv iota.
    now apply forRows_step.
  - intros next merged k. apply customise_frame.
Qed.

Lemma template_updated_in_place_witness :
  let args := Sample.args (Some "/data/in.csv") false in
  let template :=
    PDict [(KStr "site", PStr "A");
           (KStr "transmitter", PDict [(KStr "lat", PFloat 1.0)])] in
  let sent := PDict [(KStr "site", PStr "B");
                     (KStr "transmitter", PDict [(KStr "lat", PFloat 1.0)])] in
  let merged := PDict [(KStr "site", PStr "B");
                       (KStr "transmitter", PDict [(KStr "lat", PStr "5.5")])] in
  customiseJsonFromCsvRow template [(KStr "site", PStr "B")] = Ok sent
  /\ customiseJsonFromCsvRow sent [(KStr "transmitter.lat", PStr "5.5")] = Ok merged
  /\ getitem merged (KStr "site") = getitem sent (KStr "site").
Proof.
  cbv zeta. split; [reflexivity|]. split; [reflexivity|].
  destruct (template_updated_in_place "area" (Sample.args (Some "/data/in.csv") false)
              (Sample.env Sample.template [] [])
              {| jsonTemplate :=
                   PDict [(KStr "site", PStr "A");
                          (KStr "transmitter", PDict [(KStr "lat", PFloat 1.0)])];
                 events := [] |}
              [(KStr "site", PStr "B")] [] _ eq_refl) as [_ [_ [_ Hframe]]].
  apply (Hframe [(KStr "transmitter.lat", PStr "5.5")] _ (KStr "site") eq_refl).
  intros key value [H|[]]. injection H as <- _. discriminate.
Defined.

(** C1, as stated, fails.  With the rows [{"site": "B"}] and
    [{"transmitter.lat": "5.5"}] the second request still carries the site B
    of the first row, where a copy of the loaded template would carry A, and
    the template is no longer what was loaded.  Through a CSV file with the
    header transmitter.lat,transmitter: the first row leaves a string under
    transmitter, so the second row, which a copy of the loaded template
    would take, ends the run in a TypeError after one request. *)
Lemma template_not_cloned_counterexample :
  let args := Sample.args (Some "/data/in.csv") false in
  let template :=
    PDict [(KStr "site", PStr "A");
           (KStr "transmitter", PDict [(KStr "lat", PFloat 1.0)])] in
  let row1 := [(KStr "site", PStr "B")] in
  let row2 := [(KStr "transmitter.lat", PStr "5.5")] in
  let final :=
    snd (forRows (Some "area") args (Sample.env template [] []) [row1; row2]
           {| jsonTemplate := template; events := [] |}) in
  bodies (events final)
    = [PDict [(KStr "site", PStr "B");
              (KStr "transmitter", PDict [(KStr "lat", PFloat 1.0)])];
       PDict [(KStr "site", PStr "B");
              (KStr "transmitter", PDict [(KStr "lat", PStr "5.5")])]]
  /\ customiseJsonFromCsvRow template row2
     = Ok (PDict [(KStr "site", PStr "A");
                  (KStr "transmitter", PDict [(KStr "lat", PStr "5.5")])])
  /\ jsonTemplate final <> template
  /\ run (Some "area") args
       (Sample.env Sample.template
          [["transmitter.lat"; "transmitter"]; ["5.5"; "x"]; ["6.5"; "y"]] [])
     = (Fail (Uncaught TypeError),
        {| jsonTemplate := PDict [(KStr "transmitter", PStr "x")];
           events := [request args "area" (PDict [(KStr "transmitter", PStr "x")])] |})
  /\ customiseJsonFromCsvRow Sample.template
       [(KStr "transmitter.lat", PStr "6.5"); (KStr "transmitter", PStr "y")]
     = Ok (PDict [(KStr "transmitter", PStr "y")]).
Proof.
  cbv zeta. split; [reflexivity|]. split; [reflexivity|].
  split; [vm_compute; discriminate|]. split; reflexivity.
Qed.

(** * Further properties *)

(** ** Files and directories *)

(** X1: the check of files and directories passes exactly when the
    template file exists, the CSV file exists if one is given, the output
    directory exists or can be created, and the probe file can be written.
    The template is tested first: when it is missing the exit is that of
    line 187 whatever else is wrong.  The check sends nothing and leaves
    the template in memory alone. *)
Theorem file_checks_pass_iff (args : arguments) (env : environment) (st : state) :
  (fst (validateFileAndDirectoryPermissions args env st) = Ok tt
   <-> template_exists env = true
       /\ (csv_given args = true -> csv_exists env = true)
       /\ (output_exists env = true \/ makedirs_ok env = true)
       /\ probe_ok env = true)
  /\ (template_exists env = false ->
        validateFileAndDirectoryPermissions args env st
        = (Fail (SystemExit TemplateNotFound), st))
  /\ (template_exists env = true -> csv_given args = true -> csv_exists env = false ->
        fst (validateFileAndDirectoryPermissions args env st)
        = Fail (SystemExit CsvNotFound))
  /\ jsonTemplate (snd (validateFileAndDirectoryPermissions args env st))
     = jsonTemplate st
  /\ posts (events (snd (validateFileAndDirectoryPermissions args env st)))
     = posts (events st).
Proof.
  unfold validateFileAndDirectoryPermissions, verboseLog, when, bind, emit,
    exit, raise, ret.
  destruct (template_exists env), (csv_given args), (csv_exists env),
    (output_exists env), (makedirs_ok env), (probe_ok env), (verbose args);
    simpl; rewrite ?posts_app; simpl; rewrite ?app_nil_r;
    (split; [split; [intros H; try discriminate; repeat split; auto
                    | intros (H1 & H2 & H3 & H4);
                      try discriminate; try (specialize (H2 eq_refl); discriminate);
                      try (destruct H3; discriminate); reflexivity]
            | repeat split; intros; try discriminate; reflexivity]).
Qed.

(** ** The parts of a key *)

Lemma split_length (sep : ascii) (s : string) :
  List.length (split sep s) = S (count_char sep s).
Proof.
  induction s as [|c s IH]; simpl; [reflexivity|].
  destruct (Ascii.eqb c sep); simpl.
  - now rewrite IH.
  - destruct (split sep s) as [|p ps] eqn:E; simpl in *; [discriminate|].
    exact IH.
Qed.

(** X2: the depth of a header is the number of its dots plus one.  A cell
    with a non-empty header and a non-empty value passes the check of the
    CSV file exactly when the header has at most one dot, and the depth the
    error reports is that number plus one; the merge stores at the root for
    no dot and ends in the exit of line 139 for two dots or more. *)
Theorem depth_counts_dots (header value : string) (templateJson : pyval) :
  header <> "" -> value <> "" ->
  (check_item (KStr header, PStr value) = None <-> count_char "." header <= 1)
  /\ (2 <= count_char "." header ->
        check_item (KStr header, PStr value)
        = Some (DepthExceeded (S (count_char "." header))))
  /\ (count_char "." header = 0 ->
        override templateJson (KStr header) (PStr value)
        = setitem templateJson (KStr header) (PStr value))
  /\ (2 <= count_char "." header ->
        override templateJson (KStr header) (PStr value)
        = Fail (SystemExit MaximumDepth)).
Proof.
  intros Hh Hv.
  assert (Hk : String.eqb header "" = false) by now apply String.eqb_neq.
  assert (Hw : String.eqb value "" = false) by now apply String.eqb_neq.
  unfold check_item. simpl. rewrite Hk, Hw. simpl.
  rewrite (split_length "." header).
  split; [|split; [|split]].
  - destruct (Nat.ltb 2 (S (count_char "." header))) eqn:E.
    + apply Nat.ltb_lt in E. split; [discriminate | lia].
    + apply Nat.ltb_ge in E. split; [lia | reflexivity].
  - intros H.
    assert (E : Nat.ltb 2 (S (count_char "." header)) = true)
      by (apply Nat.ltb_lt; lia).
    now rewrite E.
  - intros H. apply override_one. simpl. now rewrite split_length, H.
  - intros H. apply override_deep. simpl. rewrite split_length. lia.
Qed.

Lemma depth_counts_dots_witness :
  check_item (KStr "antenna.pattern.gain", PStr "2")
  = Some (DepthExceeded 3).
Proof.
  exact (proj1 (proj2 (depth_counts_dots "antenna.pattern.gain" "2" PNone
                         ltac:(discriminate) ltac:(discriminate)))
               ltac:(simpl; lia)).
Defined.

(** ** The messages for an API key *)

(** X3: which of the three messages a refused API key gets.  The message
    about the format is given exactly when the key does not hold exactly
    one dash; with one dash, the message about the user part exactly when
    the part before the dash is not numeric (an empty part included); and
    the message about the token only when the user part is numeric and the
    part after the dash is not 40 characters long.  The state is left as it
    was in every case. *)
Theorem api_key_message (args : arguments) (st : state) :
  let parts := split "-" (api_key args) in
  (validateApiKey args st = (Fail (SystemExit ApiKeyFormat), st)
   <-> count_char "-" (api_key args) <> 1)
  /\ (validateApiKey args st = (Fail (SystemExit ApiKeyUid), st)
      <-> count_char "-" (api_key args) = 1
          /\ isnumeric (nth 0 parts "") = false)
  /\ (validateApiKey args st = (Fail (SystemExit ApiKeyToken), st)
      <-> count_char "-" (api_key args) = 1
          /\ isnumeric (nth 0 parts "") = true
          /\ String.length (nth 1 parts "") <> 40)
  /\ snd (validateApiKey args st) = st.
Proof.
  cbv zeta. unfold validateApiKey.
  rewrite (split_length "-" (api_key args)).
  destruct (Nat.eqb (S (count_char "-" (api_key args))) 2) eqn:E2; simpl.
  - apply Nat.eqb_eq in E2.
    assert (Hc : count_char "-" (api_key args) = 1) by lia.
    destruct (isnumeric (nth 0 (split "-" (api_key args)) "")) eqn:En; simpl.
    + destruct (Nat.eqb (String.length (nth 1 (split "-" (api_key args)) "")) 40)
        eqn:E40; simpl.
      * apply Nat.eqb_eq in E40.
        repeat split; try discriminate; try congruence.
        all: intros H; decompose [and] H; congruence.
      * apply Nat.eqb_neq in E40.
        repeat split; try discriminate; try congruence.
        all: intros H; decompose [and] H; congruence.
    + repeat split; try discriminate; try congruence.
      all: intros H; decompose [and] H; congruence.
  - apply Nat.eqb_neq in E2.
    assert (Hc : count_char "-" (api_key args) <> 1) by lia.
    repeat split; try discriminate; try congruence.
    all: intros H; decompose [and] H; congruence.
Qed.

(** ** The endpoint *)

Lemma rstrip_app_sep (c : ascii) (s : string) :
  rstrip c (s ++ String c EmptyString)%string = rstrip c s.
Proof.
  induction s as [|x s IH]; simpl.
  - now rewrite Ascii.eqb_refl.
  - now rewrite IH.
Qed.

Lemma rstrip_last (c : ascii) (s : string) : last_char (rstrip c s) <> Some c.
Proof.
  induction s as [|x s IH]; simpl; [discriminate|].
  destruct (Ascii.eqb x c) eqn:E; simpl.
  - destruct (rstrip c s) as [|y r] eqn:R; simpl; [discriminate|].
    exact IH.
  - destruct (rstrip c s) as [|y r] eqn:R; simpl.
    + intros H. injection H as ->. now rewrite Ascii.eqb_refl in E.
    + exact IH.
Qed.

Lemma calculate_same_endpoint (rt : option string) (args : arguments)
  (env : environment) (url : string) (jsonData : pyval) (st : state) :
  rstrip "/" url = rstrip "/" (base_url args) ->
  calculate rt (with_base_url args url) env jsonData st
  = calculate rt args env jsonData st.
Proof.
  intros H. unfold calculate, endpoint, with_base_url. simpl. now rewrite H.
Qed.

Lemma forRows_same_endpoint (rt : option string) (args : arguments)
  (env : environment) (url : string) (rows : list dict) (st : state) :
  rstrip "/" url = rstrip "/" (base_url args) ->
  forRows rt (with_base_url args url) env rows st = forRows rt args env rows st.
Proof.
  intros H. revert st. induction rows as [|row rows IH]; intros st; simpl.
  - reflexivity.
  - unfold bind, getTemplate, lift, setTemplate.
    destruct (customiseJsonFromCsvRow (jsonTemplate st) row); [|reflexivity].
    rewrite (calculate_same_endpoint _ _ _ _ _ _ H).
    destruct (calculate rt args env a _) as [[[]|f] st1]; [apply IH | reflexivity].
Qed.

(** X4: trailing slashes of the base URL do not matter.  The base URL with
    its trailing slashes removed never ends in a slash, so the endpoint has
    exactly one slash between the base and the request type; and a run with
    one more slash at the end of the base URL gives the same result, the
    same requests and the same output as the run without it. *)
Theorem base_url_trailing_slash
  (requestType : option string) (args : arguments) (env : environment) :
  last_char (rstrip "/" (base_url args)) <> Some "/"%char
  /\ (forall rt,
        endpoint (with_base_url args (base_url args ++ "/")%string) rt
        = endpoint args rt)
  /\ run requestType (with_base_url args (base_url args ++ "/")%string) env
     = run requestType args env.
Proof.
  assert (H : rstrip "/" (base_url args ++ "/")%string = rstrip "/" (base_url args))
    by apply rstrip_app_sep.
  split; [apply rstrip_last|]. split.
  - intros rt. unfold endpoint, with_base_url. simpl. now rewrite H.
  - unfold run, init.
    change (startup requestType (with_base_url args (base_url args ++ "/")%string) env)
      with (startup requestType args env).
    unfold bind.
    destruct (startup requestType args env initial) as [[c|f] st]; [|reflexivity].
    unfold dispatch.
    change (csv_given (with_base_url args (base_url args ++ "/")%string))
      with (csv_given args).
    destruct (csv_given args && has_rows c).
    + now rewrite (forRows_same_endpoint _ _ _ _ _ _ H).
    + unfold bind, getTemplate.
      now rewrite (calculate_same_endpoint _ _ _ _ _ _ H).
Qed.

(** ** Transport failures *)

(** X5: a TLS failure ends the batch at once.  When the row merges and the
    request for it ends in an SSL error, the run exits with the message of
    line 110 right after that request and no later row is touched; any
    other failure of the transport escapes as an uncaught exception at the
    same point. *)
Theorem transport_failure_aborts_batch
  (rt : string) (args : arguments) (env : environment) (st : state)
  (row : dict) (rest : list dict) (newJsonData : pyval) :
  customiseJsonFromCsvRow (jsonTemplate st) row = Ok newJsonData ->
  let sent := events st ++ running_log args rt ++ [request args rt newJsonData] in
  let outcome :=
    server env (List.length (posts (events st))) (endpoint args rt) newJsonData in
  (outcome = SSLError ->
     forRows (Some rt) args env (row :: rest) st
     = (Fail (SystemExit SslErrorOccurred),
        {| jsonTemplate := newJsonData; events := sent |}))
  /\ (outcome = OtherRequestError ->
        forRows (Some rt) args env (row :: rest) st
        = (Fail (Uncaught RequestException),
           {| jsonTemplate := newJsonData; events := sent |}))
  /\ category (SystemExit SslErrorOccurred) = Some TlsError.
Proof.
  intros Hrow sent outcome. subst sent outcome.
  rewrite (forRows_step _ _ _ _ _ _ _ Hrow).
  unfold calculate, verboseLog, when, post, running_log, request, bind.
  destruct (verbose args); simpl; rewrite ?posts_app; simpl;
    rewrite ?app_nil_r; repeat split; intros H; rewrite H; simpl;
    rewrite <- ?app_assoc; reflexivity.
Qed.

Lemma transport_failure_aborts_batch_witness :
  let args := Sample.args (Some "/data/in.csv") true in
  let env :=
    {| template_exists := true; csv_exists := true; output_exists := true;
       makedirs_ok := true; probe_ok := true;
       template_file := JsonLoaded Sample.template;
       csv_input := CsvRecords [];
       server := fun _ _ _ => SSLError |} in
  fst (forRows (Some "area") args env
         [[(KStr "transmitter.lat", PStr "5.5")];
          [(KStr "transmitter.lat", PStr "6.5")]]
         {| jsonTemplate := Sample.template; events := [] |})
  = Fail (SystemExit SslErrorOccurred).
Proof.
  cbv zeta.
  destruct (transport_failure_aborts_batch "area"
              (Sample.args (Some "/data/in.csv") true)
              {| template_exists := true; csv_exists := true; output_exists := true;
                 makedirs_ok := true; probe_ok := true;
                 template_file := JsonLoaded Sample.template;
                 csv_input := CsvRecords [];
                 server := fun _ _ _ => SSLError |}
              {| jsonTemplate := Sample.template; events := [] |}
              [(KStr "transmitter.lat", PStr "5.5")]
              [[(KStr "transmitter.lat", PStr "6.5")]]
              _ eq_refl) as [Hssl _].
  exact (f_equal fst (Hssl eq_refl)).
Defined.

(** ** The requests of a batch *)

Lemma bind_ok_inv {A B : Type} (m : Proc A) (k : A -> Proc B)
  (st st' : state) (b : B) :
  bind m k st = (Ok b, st') ->
  exists a st1, m st = (Ok a, st1) /\ k a st1 = (Ok b, st').
Proof.
  unfold bind. destruct (m st) as [[a|f] st1]; [|discriminate].
  intros H. now exists a, st1.
Qed.

(** Whatever its outcome, [__calculate] adds exactly its own request. *)
Lemma calculate_posts (rt : string) (args : arguments) (env : environment)
  (jsonData : pyval) (st : state) :
  posts (events (snd (calculate (Some rt) args env jsonData st)))
  = posts (events st) ++ [request args rt jsonData].
Proof.
  unfold calculate, verboseLog, when, post, checkHttpResponse, request, bind,
    emit, exit, raise, ret.
  destruct (verbose args); simpl;
    match goal with |- context [server ?e ?n ?u ?j] => destruct (server e n u j) end;
    simpl; try (destruct (Z.eqb status_code 200); simpl);
    rewrite ?posts_app; simpl; rewrite ?app_nil_r; reflexivity.
Qed.


Lemma merges_length (t : pyval) (rows : list dict) :
  List.length (merges t rows) <= List.length rows.
Proof.
  revert t. induction rows as [|row rows IH]; intros t; simpl; [lia|].
  destruct (customiseJsonFromCsvRow t row); simpl; [|lia].
  specialize (IH a). lia.
Qed.

Lemma forRows_posts_merges
  (rt : string) (args : arguments) (env : environment)
  (rows : list dict) (st : state) :
  exists n,
    n <= List.length (merges (jsonTemplate st) rows)
    /\ posts (events (snd (forRows (Some rt) args env rows st)))
       = posts (events st)
         ++ map (request args rt) (firstn n (merges (jsonTemplate st) rows))
    /\ (fst (forRows (Some rt) args env rows st) = Ok tt ->
          n = List.length rows)
    /\ List.length (merges (jsonTemplate st) rows) <= List.length rows.
Proof.
  revert st. induction rows as [|row rows IH]; intros st.
  - exists 0. simpl. rewrite app_nil_r. auto.
  - destruct (customiseJsonFromCsvRow (jsonTemplate st) row) as [t|f] eqn:E.
    + rewrite (forRows_step _ _ _ _ _ _ _ E). simpl merges. rewrite E.
      unfold bind.
      pose proof (calculate_posts rt args env t
                    {| jsonTemplate := t; events := events st |}) as Hp.
      destruct (calculate_sends rt args env t
                  {| jsonTemplate := t; events := events st |}) as [Ht _].
      destruct (calculate (Some rt) args env t _) as [[[]|f] st1]; simpl in *.
      * destruct (IH st1) as [n (Hn & Hposts & Hok & Hlen)].
        rewrite Ht in *. exists (S n). simpl.
        rewrite Hposts, Hp, <- app_assoc. simpl.
        repeat split; auto; try lia;
          try (intros H; rewrite (Hok H); reflexivity).
      * exists 1. simpl. rewrite Hp.
        pose proof (merges_length t rows).
        repeat split; auto; try lia. discriminate.
    + simpl forRows. unfold bind, getTemplate, lift. rewrite E.
      exists 0. simpl. rewrite E. simpl. rewrite app_nil_r.
      repeat split; auto; try lia. discriminate.
Qed.






(** ** The ways a run ends *)

Lemma fails_only_ret {A : Type} (P : failure -> bool) (a : A) : fails_only P (ret a).
Proof. intros st f st' H. discriminate. Qed.

Lemma fails_only_raise {A : Type} (P : failure -> bool) (f : failure) :
  P f = true -> fails_only P (@raise A f).
Proof. intros Hf st f' st' H. injection H as <- _. exact Hf. Qed.

Lemma fails_only_exit {A : Type} (P : failure -> bool) (m : exit_message) :
  P (SystemExit m) = true -> fails_only P (@exit A m).
Proof. apply fails_only_raise. Qed.

Lemma fails_only_emit (P : failure -> bool) (e : event) : fails_only P (emit e).
Proof. intros st f st' H. discriminate. Qed.

Lemma fails_only_setTemplate (P : failure -> bool) (v : pyval) :
  fails_only P (setTemplate v).
Proof. intros st f st' H. discriminate. Qed.

Lemma fails_only_getTemplate (P : failure -> bool) : fails_only P getTemplate.
Proof. intros st f st' H. discriminate. Qed.

Lemma fails_only_bind {A B : Type} (P : failure -> bool)
  (m : Proc A) (k : A -> Proc B) :
  fails_only P m -> (forall a, fails_only P (k a)) -> fails_only P (bind m k).
Proof.
  intros Hm Hk st f st'. unfold bind.
  destruct (m st) as [[a|f0] st1] eqn:E.
  - apply Hk.
  - intros H. injection H as <- _. eapply Hm; eauto.
Qed.

Lemma fails_only_when (P : failure -> bool) (b : bool) (m : Proc unit) :
  fails_only P m -> fails_only P (when b m).
Proof. intros H. destruct b; simpl; [exact H | apply fails_only_ret]. Qed.

Ltac fails_only_steps :=
  repeat first
    [ apply fails_only_bind; [|intros ?]
    | apply fails_only_when
    | apply fails_only_ret
    | apply fails_only_emit
    | apply fails_only_setTemplate
    | apply fails_only_getTemplate
    | apply fails_only_exit; reflexivity
    | apply fails_only_raise; reflexivity
    | match goal with
      | |- fails_only _ (if ?b then _ else _) => destruct b
      | |- fails_only _ (match ?x with _ => _ end) => destruct x
      end ].

Lemma startup_fails_only (rt : option string) (args : arguments) (env : environment) :
  fails_only startup_failure (startup rt args env).
Proof.
  unfold startup, validateRequestType, validateApiKey,
    validateFileAndDirectoryPermissions, validateJsonTemplate, validateCsv,
    verboseLog.
  fails_only_steps.
Qed.

Lemma customise_request_failure (t : pyval) (row : dict) (f : failure) :
  customiseJsonFromCsvRow t row = Fail f ->
  f = SystemExit MaximumDepth \/ f = Uncaught KeyError \/ f = Uncaught TypeError.
Proof.
  revert t. induction row as [|[k v] row IH]; intros t H; simpl in H.
  - discriminate.
  - destruct (override t k v) as [t1|f1] eqn:E; [eauto|].
    injection H as <-. revert E. unfold override, getitem, setitem.
    destruct (Nat.eqb (List.length (split "." (str k))) 2).
    + destruct t as [| | | | | |d]; try (intros H; injection H as <-; tauto).
      destruct (dict_get _ d) as [inner|]; [|intros H; injection H as <-; tauto].
      destruct inner; try discriminate; intros H; injection H as <-; tauto.
    + destruct (Nat.eqb (List.length (split "." (str k))) 1).
      * destruct t; try discriminate; intros H; injection H as <-; tauto.
      * intros H. injection H as <-. tauto.
Qed.

Lemma calculate_fails_only (rt : option string) (args : arguments)
  (env : environment) (jsonData : pyval) :
  fails_only request_failure (calculate rt args env jsonData).
Proof.
  intros st f st'.
  unfold calculate, verboseLog, when, post, checkHttpResponse, http_exit, bind,
    emit, exit, raise.
  destruct (verbose args), rt as [r|]; simpl;
    try (intros H; inversion H; reflexivity);
    match goal with |- context [server ?e ?n ?u ?j] => destruct (server e n u j) end;
    simpl; try (intros H; inversion H; reflexivity);
    destruct (Z.eqb status_code 200); simpl;
    try (intros H; inversion H; reflexivity);
    repeat match goal with |- context [if ?b then _ else _] => destruct b end;
    intros H; inversion H; reflexivity.
Qed.

Lemma forRows_fails_only (rt : option string) (args : arguments)
  (env : environment) (rows : list dict) :
  fails_only request_failure (forRows rt args env rows).
Proof.
  induction rows as [|row rows IH]; simpl.
  - apply fails_only_ret.
  - apply fails_only_bind; [apply fails_only_getTemplate|]. intros t.
    apply fails_only_bind.
    + intros st f st'. unfold lift. intros H. injection H as H _.
      destruct (customise_request_failure _ _ _ H) as [->|[->| ->]]; reflexivity.
    + intros newJsonData. apply fails_only_bind; [apply fails_only_setTemplate|].
      intros _. apply fails_only_bind; [apply calculate_fails_only|].
      intros _. exact IH.
Qed.

Lemma dispatch_fails_only (rt : option string) (args : arguments)
  (env : environment) (csvInputList : option (list dict)) :
  fails_only request_failure (dispatch rt args env csvInputList).
Proof.
  unfold dispatch. destruct (csv_given args && has_rows csvInputList).
  - apply forRows_fails_only.
  - apply fails_only_bind; [apply fails_only_getTemplate|].
    intros t. apply calculate_fails_only.
Qed.

Lemma failure_kinds_disjoint (f : failure) :
  request_failure f = true -> startup_failure f = false.
Proof. destruct f as [m|e]; [destruct m | destruct e]; simpl; congruence. Qed.

(** X7: how a run can end.  It never falls off the end: it ends in a
    diagnostic of the validations made before the first request, or in a
    failure of a merge or of a request, or in the final exit of line 64;
    and when it ends in a diagnostic of those validations, whichever it is,
    no request has been sent. *)
Theorem run_outcome
  (requestType : option string) (args : arguments) (env : environment) :
  exists f,
    fst (run requestType args env) = Fail f
    /\ (startup_failure f = true \/ request_failure f = true
        \/ f = SystemExit ProcessCompleted)
    /\ (startup_failure f = true ->
          posts (events (snd (run requestType args env))) = []).
Proof.
  unfold run, init, bind.
  destruct (quiet_startup requestType args env initial) as [evs [Hev Hposts]].
  pose proof (startup_fails_only requestType args env initial) as Hs.
  destruct (startup requestType args env initial) as [[c|f] st]; simpl in *.
  - pose proof (dispatch_fails_only requestType args env c st) as Hd.
    destruct (dispatch requestType args env c st) as [[[]|f] st1]; simpl.
    + exists (SystemExit ProcessCompleted). repeat split; auto. discriminate.
    + exists f. specialize (Hd f st1 eq_refl).
      repeat split; auto.
      rewrite (failure_kinds_disjoint _ Hd). discriminate.
  - exists f. specialize (Hs f st eq_refl).
    repeat split; auto. intros _. now rewrite Hev.
Qed.

(** ** What a passed start-up and a completed run tell *)

Lemma validateRequestType_ok_inv (rt : option string) (args : arguments)
  (st st' : state) (a : unit) :
  validateRequestType rt args st = (Ok a, st') -> rt = Some "area".
Proof.
  unfold validateRequestType. destruct rt as [s|]; [|discriminate].
  destruct (String.eqb s "") eqn:E0; simpl; [discriminate|].
  destruct (String.eqb s "area") eqn:E; simpl; [|discriminate].
  apply String.eqb_eq in E. now subst s.
Qed.

Lemma validateFiles_ok_inv (args : arguments) (env : environment)
  (st st' : state) (a : unit) :
  validateFileAndDirectoryPermissions args env st = (Ok a, st') ->
  template_exists env = true
  /\ (csv_given args = true -> csv_exists env = true)
  /\ (output_exists env = true \/ makedirs_ok env = true)
  /\ probe_ok env = true.
Proof.
  unfold validateFileAndDirectoryPermissions, verboseLog, when, bind, emit,
    exit, raise, ret.
  destruct (template_exists env), (csv_given args), (csv_exists env),
    (output_exists env), (makedirs_ok env), (probe_ok env), (verbose args);
    simpl; intros H; try discriminate; repeat split; auto.
Qed.

Lemma validateJsonTemplate_ok_inv (env : environment) (st st' : state) (t : pyval) :
  validateJsonTemplate env st = (Ok t, st') ->
  template_file env = JsonLoaded t /\ st' = st.
Proof.
  unfold validateJsonTemplate.
  destruct (template_file env); try discriminate.
  intros H. injection H as <- <-. auto.
Qed.

Lemma validateCsv_ok_inv (args : arguments) (env : environment)
  (st st' : state) (c : option (list dict)) :
  validateCsv args env st = (Ok c, st') ->
  st' = st
  /\ ((csv_given args = false /\ c = None)
      \/ (csv_given args = true
          /\ exists records,
               csv_input env = CsvRecords records
               /\ c = Some (Csv.DictReader records)
               /\ check_rows (Csv.DictReader records) [] = inr (Csv.DictReader records))).
Proof.
  unfold validateCsv. destruct (csv_given args).
  - destruct (csv_input env) as [records| |]; try discriminate.
    destruct (check_rows (Csv.DictReader records) []) as [e|l] eqn:E; [discriminate|].
    intros H. injection H as <- <-.
    destruct (check_rows_accepts _ _ _ E) as [-> _]. simpl in *.
    split; [reflexivity|]. right. split; [reflexivity|].
    exists records. auto.
  - intros H. injection H as <- <-. auto.
Qed.

Lemma startup_ok_inv (rt : option string) (args : arguments) (env : environment)
  (c : option (list dict)) (st : state) :
  startup rt args env initial = (Ok c, st) ->
  preflight_ok rt args env (jsonTemplate st)
  /\ posts (events st) = []
  /\ validateCsv args env st = (Ok c, st).
Proof.
  intros H.
  destruct (quiet_startup rt args env initial) as [evs [Hev Hposts]].
  rewrite H in Hev. simpl in Hev.
  unfold startup in H.
  apply bind_ok_inv in H. destruct H as [a1 [s1 [_ H]]].
  apply bind_ok_inv in H. destruct H as [a2 [s2 [_ H]]].
  apply bind_ok_inv in H. destruct H as [a3 [s3 [Hrt H]]].
  apply bind_ok_inv in H. destruct H as [a4 [s4 [Hkey H]]].
  apply bind_ok_inv in H. destruct H as [a5 [s5 [Hfiles H]]].
  apply bind_ok_inv in H. destruct H as [t [s6 [Htemplate H]]].
  apply bind_ok_inv in H. destruct H as [a7 [s7 [Hset Hcsv]]].
  unfold setTemplate in Hset. injection Hset as _ <-.
  destruct (validateCsv_ok_inv _ _ _ _ _ Hcsv) as [-> _].
  simpl in *. split; [|split; [now rewrite Hev | exact Hcsv]].
  destruct (validateFiles_ok_inv _ _ _ _ _ Hfiles) as (F1 & F2 & F3 & F4).
  destruct (validateJsonTemplate_ok_inv _ _ _ _ Htemplate) as [Ht _].
  unfold preflight_ok. repeat split; auto.
  - eapply validateRequestType_ok_inv; eauto.
  - rewrite validateApiKey_state in Hkey. injection Hkey as Hk _.
    rewrite Hk. now destruct a4.
Qed.

(** X8: the start-up passes exactly when everything it validates is in
    order: the request type is "area", the API key is well formed, the files
    and the output directory are in place, the template file loads, and,
    when a CSV file is given, it can be read and none of its rows offends.
    It then leaves the loaded template in memory, has sent nothing, and
    hands on the rows of the CSV file in their order. *)
Theorem startup_passes_iff
  (requestType : option string) (args : arguments) (env : environment) :
  ((exists c st, startup requestType args env initial = (Ok c, st))
   <-> exists template,
         preflight_ok requestType args env template
         /\ (csv_given args = true ->
               exists records,
                 csv_input env = CsvRecords records
                 /\ check_rows (Csv.DictReader records) []
                    = inr (Csv.DictReader records)))
  /\ (forall c st,
        startup requestType args env initial = (Ok c, st) ->
        template_file env = JsonLoaded (jsonTemplate st)
        /\ posts (events st) = []
        /\ (csv_given args = false -> c = None)
        /\ (forall records, csv_given args = true ->
              csv_input env = CsvRecords records ->
              c = Some (Csv.DictReader records))).
Proof.
  split; [split|].
  - intros [c [st H]].
    destruct (startup_ok_inv _ _ _ _ _ H) as (Hpre & _ & Hcsv).
    exists (jsonTemplate st). split; [exact Hpre|].
    intros Hgiven.
    destruct (validateCsv_ok_inv _ _ _ _ _ Hcsv) as [_ [[Hn _]|[_ [records (R1 & _ & R3)]]]].
    + congruence.
    + now exists records.
  - intros [template [Hpre Hcsv]].
    destruct (startup_preflight _ _ _ _ Hpre) as [evs [_ Hstart]].
    rewrite Hstart.
    destruct (csv_given args) eqn:Hgiven.
    + destruct (Hcsv eq_refl) as [records [R1 R2]].
      rewrite (validateCsv_given _ _ _ _ Hgiven R1), R2. eauto.
    + rewrite (validateCsv_not_given _ _ _ Hgiven). eauto.
  - intros c st H.
    destruct (startup_ok_inv _ _ _ _ _ H) as (Hpre & Hposts & Hcsv).
    destruct Hpre as (_ & _ & _ & _ & _ & _ & Ht).
    split; [exact Ht|]. split; [exact Hposts|].
    destruct (validateCsv_ok_inv _ _ _ _ _ Hcsv)
      as [_ [[Hn ->]|[Hg [records (R1 & -> & _)]]]].
    + split; [reflexivity|]. intros records Hg. congruence.
    + split; [congruence|]. intros records' _ R1'.
      rewrite R1 in R1'. now injection R1' as ->.
Qed.




(** ** Verbosity *)

Lemma same_traffic_refl (st : state) : same_traffic st st.
Proof. split; reflexivity. Qed.

Lemma agree_ret {A : Type} (a : A) : agree (ret a) (ret a).
Proof. intros st st' H. simpl. auto. Qed.

Lemma agree_raise {A : Type} (f : failure) : agree (@raise A f) (@raise A f).
Proof. intros st st' H. simpl. auto. Qed.

Lemma agree_lift {A : Type} (r : result A) : agree (lift r) (lift r).
Proof. intros st st' H. simpl. auto. Qed.

Lemma agree_emit (e : event) : agree (emit e) (emit e).
Proof.
  intros st st' [Ht Hp]. simpl. split; [reflexivity|].
  split; simpl; [exact Ht | now rewrite !posts_app, Hp].
Qed.

Lemma agree_when_print (b b' : bool) (m m' : message) :
  agree (when b (emit (Print m))) (when b' (emit (Print m'))).
Proof.
  intros st st' [Ht Hp].
  destruct b, b'; simpl; (split; [reflexivity|]); split; simpl;
    rewrite ?posts_app; simpl; rewrite ?app_nil_r; assumption.
Qed.

Lemma agree_getTemplate : agree getTemplate getTemplate.
Proof. intros st st' [Ht Hp]. simpl. split; [now rewrite Ht | now split]. Qed.

Lemma agree_setTemplate (v : pyval) : agree (setTemplate v) (setTemplate v).
Proof. intros st st' [Ht Hp]. simpl. split; [reflexivity | now split]. Qed.

Lemma agree_post (env : environment) (url key : string) (json : pyval) (verify : bool) :
  agree (post env url key json verify) (post env url key json verify).
Proof.
  intros st st' [Ht Hp]. unfold post. simpl. rewrite Hp.
  split; [reflexivity|]. split; simpl; [exact Ht | now rewrite !posts_app, Hp].
Qed.

Lemma agree_bind {A B : Type} (m m' : Proc A) (k k' : A -> Proc B) :
  agree m m' -> (forall a, agree (k a) (k' a)) -> agree (bind m k) (bind m' k').
Proof.
  intros Hm Hk st st' Hs. unfold bind.
  destruct (Hm st st' Hs) as [Hr Hst].
  destruct (m st) as [[a|f] s1], (m' st') as [[a'|f'] s1']; simpl in *;
    try discriminate.
  - injection Hr as <-. now apply Hk.
  - injection Hr as <-. auto.
Qed.

Lemma agree_when (b : bool) (m m' : Proc unit) :
  agree m m' -> agree (when b m) (when b m').
Proof. intros H. destruct b; simpl; [exact H | apply agree_ret]. Qed.

Ltac agree_steps :=
  repeat first
    [ apply agree_bind; [|intros ?]
    | apply agree_when_print
    | apply agree_when
    | apply agree_ret
    | apply agree_raise
    | apply agree_lift
    | apply agree_emit
    | apply agree_getTemplate
    | apply agree_setTemplate
    | apply agree_post
    | match goal with
      | |- agree (if ?b then _ else _) (if ?b then _ else _) => destruct b
      | |- agree (match ?x with _ => _ end) (match ?x with _ => _ end) => destruct x
      end ].

Lemma agree_calculate (rt : option string) (args : arguments) (env : environment)
  (v : bool) (jsonData : pyval) :
  agree (calculate rt (with_verbose args v) env jsonData)
        (calculate rt args env jsonData).
Proof.
  unfold calculate, verboseLog, checkHttpResponse, endpoint, exit. simpl.
  agree_steps.
Qed.

Lemma agree_forRows (rt : option string) (args : arguments) (env : environment)
  (v : bool) (rows : list dict) :
  agree (forRows rt (with_verbose args v) env rows) (forRows rt args env rows).
Proof.
  induction rows as [|row rows IH]; simpl.
  - apply agree_ret.
  - apply agree_bind; [apply agree_getTemplate|]. intros t.
    apply agree_bind; [apply agree_lift|]. intros newJsonData.
    apply agree_bind; [apply agree_setTemplate|]. intros _.
    apply agree_bind; [apply agree_calculate|]. intros _. exact IH.
Qed.

Lemma agree_startup (rt : option string) (args : arguments) (env : environment)
  (v : bool) :
  agree (startup rt (with_verbose args v) env) (startup rt args env).
Proof.
  unfold startup, validateRequestType, validateApiKey,
    validateFileAndDirectoryPermissions, validateJsonTemplate, validateCsv,
    verboseLog, csv_given, exit. simpl.
  agree_steps.
Qed.

Lemma agree_dispatch (rt : option string) (args : arguments) (env : environment)
  (v : bool) (c : option (list dict)) :
  agree (dispatch rt (with_verbose args v) env c) (dispatch rt args env c).
Proof.
  unfold dispatch.
  change (csv_given (with_verbose args v)) with (csv_given args).
  destruct (csv_given args && has_rows c).
  - apply agree_forRows.
  - apply agree_bind; [apply agree_getTemplate|]. intros t. apply agree_calculate.
Qed.

(** X10: verbosity changes only what is printed.  A run with the verbose
    flag set either way ends in the same way, has sent the same requests
    (same endpoint, key, data and TLS setting, in the same order) and
    leaves the same template as the run with the flag as given. *)
Theorem verbose_only_prints
  (requestType : option string) (args : arguments) (env : environment) (v : bool) :
  fst (run requestType (with_verbose args v) env) = fst (run requestType args env)
  /\ posts (events (snd (run requestType (with_verbose args v) env)))
     = posts (events (snd (run requestType args env)))
  /\ jsonTemplate (snd (run requestType (with_verbose args v) env))
     = jsonTemplate (snd (run requestType args env)).
Proof.
  assert (H : agree (init requestType (with_verbose args v) env)
                    (init requestType args env)).
  { unfold init. apply agree_bind; [apply agree_startup|]. intros c.
    apply agree_bind; [apply agree_dispatch|]. intros _. apply agree_raise. }
  destruct (H initial initial (same_traffic_refl initial)) as [Hr [Ht Hp]].
  unfold run. auto.
Qed.

(** ** The rows of a validated CSV file *)

Lemma dict_set_In (k k' : pykey) (v v' : pyval) (d : dict) :
  In (k', v') (dict_set k v d) -> In (k', v') d \/ (k' = k /\ v' = v).
Proof.
  induction d as [|[k0 v0] d IH]; simpl.
  - intros [H|[]]. injection H as <- <-. auto.
  - destruct (key_eqb k k0) eqn:E; simpl.
    + apply key_eqb_eq in E. subst k0.
      intros [H|H]; [injection H as <- <-; auto | auto].
    + intros [H|H]; [auto|]. destruct (IH H) as [H1|H1]; auto.
Qed.

Lemma dict_set_In_same (k : pykey) (v : pyval) (d : dict) :
  In (k, v) (dict_set k v d).
Proof.
  induction d as [|[k0 v0] d IH]; simpl; [auto|].
  destruct (key_eqb k k0) eqn:E; simpl; [|auto].
  apply key_eqb_eq in E. subst k0. auto.
Qed.

Lemma dict_set_In_value (k k' : pykey) (v : pyval) (d : dict) :
  In (k', v) d -> In (k', v) (dict_set k v d).
Proof.
  induction d as [|[k0 v0] d IH]; simpl; [tauto|].
  destruct (key_eqb k k0) eqn:E; simpl.
  - apply key_eqb_eq in E. subst k0.
    intros [H|H]; [injection H as <- <-; auto | auto].
  - intros [H|H]; auto.
Qed.

Lemma dict_set_keys (k : pykey) (v v' : pyval) (d d' : dict) :
  map fst d = map fst d' ->
  map fst (dict_set k v d) = map fst (dict_set k v' d').
Proof.
  revert d'. induction d as [|[k0 v0] d IH]; intros [|[k1 v1] d'] H;
    simpl in *; try discriminate; [reflexivity|].
  injection H as <- H.
  destruct (key_eqb k k0); simpl; [now rewrite H | now rewrite (IH d' H)].
Qed.

Lemma zip_dict_keys (fs : list string) (cs cs' : Csv.record) (d d' : dict) :
  List.length cs = List.length cs' -> map fst d = map fst d' ->
  map fst (Csv.zip_dict fs cs d) = map fst (Csv.zip_dict fs cs' d').
Proof.
  revert cs cs' d d'.
  induction fs as [|f fs IH]; intros cs cs' d d' Hlen Hk; simpl; [exact Hk|].
  destruct cs as [|c cs], cs' as [|c' cs']; simpl in *; try discriminate;
    [exact Hk|].
  apply IH; [lia | now apply dict_set_keys].
Qed.

Lemma zip_dict_items (fs : list string) (cs : Csv.record) (d : dict) :
  Forall csv_item d -> Forall csv_item (Csv.zip_dict fs cs d).
Proof.
  revert cs d. induction fs as [|f fs IH]; intros cs d Hd; simpl; [exact Hd|].
  destruct cs as [|c cs]; [exact Hd|].
  apply IH. apply Forall_forall. intros [k v] Hin.
  destruct (dict_set_In _ _ _ _ _ Hin) as [H|[-> ->]].
  - exact (proj1 (Forall_forall _ _) Hd _ H).
  - left. exists f. simpl. eauto.
Qed.

Lemma make_row_items (fs : list string) (cs : Csv.record) :
  Forall csv_item (Csv.make_row fs cs).
Proof.
  unfold Csv.make_row.
  pose proof (zip_dict_items fs cs [] (Forall_nil _)) as Hz.
  destruct (Nat.ltb (List.length fs) (List.length cs)).
  - apply Forall_forall. intros [k v] Hin.
    destruct (dict_set_In _ _ _ _ _ Hin) as [H|[-> ->]].
    + exact (proj1 (Forall_forall _ _) Hz _ H).
    + right. simpl. eauto.
  - destruct (Nat.ltb (List.length cs) (List.length fs)); [|exact Hz].
    revert Hz. generalize (Csv.zip_dict fs cs []).
    induction (skipn (List.length cs) fs) as [|key keys IH]; intros d Hd; simpl;
      [exact Hd|].
    apply IH. apply Forall_forall. intros [k v] Hin.
    destruct (dict_set_In _ _ _ _ _ Hin) as [H|[-> ->]].
    + exact (proj1 (Forall_forall _ _) Hd _ H).
    + left. exists key. simpl. auto.
Qed.

Lemma fold_restval_keeps (keys : list string) (d : dict) (k : pykey) :
  In (k, PNone) d ->
  In (k, PNone) (fold_left (fun d key => dict_set (KStr key) PNone d) keys d).
Proof.
  revert d. induction keys as [|key keys IH]; intros d H; simpl; [exact H|].
  apply IH. now apply dict_set_In_value.
Qed.

Lemma fold_restval_sets (keys : list string) (d : dict) (key : string) :
  In key keys ->
  In (KStr key, PNone)
     (fold_left (fun d key => dict_set (KStr key) PNone d) keys d).
Proof.
  revert d. induction keys as [|k keys IH]; intros d Hin; simpl.
  - destruct Hin.
  - destruct Hin as [->|H].
    + apply fold_restval_keeps, dict_set_In_same.
    + now apply IH.
Qed.

Lemma check_row_offender (row : dict) (item : pykey * pyval) :
  In item row -> check_item item <> None -> check_row row <> None.
Proof.
  intros Hin Hitem Hrow. apply Hitem.
  exact (proj1 (check_row_clean row) Hrow item Hin).
Qed.

Lemma ragged_row_rejected (fieldnames : list string) (record : Csv.record) :
  List.length record <> List.length fieldnames ->
  check_row (Csv.make_row fieldnames record) <> None.
Proof.
  intros Hlen. unfold Csv.make_row.
  destruct (Nat.ltb (List.length fieldnames) (List.length record)) eqn:E1.
  - apply (check_row_offender _ (KNone, PList (map PStr (skipn (List.length fieldnames) record)))).
    + apply dict_set_In_same.
    + discriminate.
  - apply Nat.ltb_ge in E1.
    assert (E2 : Nat.ltb (List.length record) (List.length fieldnames) = true)
      by (apply Nat.ltb_lt; lia).
    rewrite E2.
    destruct (skipn (List.length record) fieldnames) as [|key keys] eqn:Es.
    + apply (f_equal (@List.length string)) in Es.
      rewrite length_skipn in Es. simpl in Es. apply Nat.ltb_lt in E2. lia.
    + apply (check_row_offender _ (KStr key, PNone)).
      * apply fold_restval_sets. now left.
      * unfold check_item. simpl. rewrite orb_true_r. discriminate.
Qed.

Lemma customise_shallow_failure (t : pyval) (row : dict) (f : failure) :
  (forall k v, In (k, v) row -> List.length (split "." (str k)) <= 2) ->
  customiseJsonFromCsvRow t row = Fail f ->
  f = Uncaught KeyError \/ f = Uncaught TypeError.
Proof.
  revert t. induction row as [|[k v] row IH]; intros t Hd H; simpl in H.
  - discriminate.
  - destruct (override t k v) as [t1|f1] eqn:E.
    + apply (IH t1); [|exact H]. intros k' v' Hin. apply (Hd k' v'). now right.
    + injection H as <-.
      destruct (customise_request_failure t [(k, v)] f1) as [->|H1]; auto.
      * simpl. now rewrite E.
      * specialize (Hd k v (or_introl eq_refl)).
        assert (Hdeep : ~ (2 < List.length (split "." (str k)))) by lia.
        exfalso. revert E. unfold override.
        pose proof (split_not_nil "." (str k)) as Hnil.
        destruct (split "." (str k)) as [|a [|b [|c l]]]; simpl in *;
          try congruence; try lia.
        -- unfold setitem. destruct t; discriminate.
        -- unfold getitem, setitem. destruct t; try discriminate.
           destruct (dict_get (KStr a) d) as [[]|]; discriminate.
Qed.

(** X11: a record with more or fewer fields than the header is refused.
    The row [DictReader] builds for it holds the surplus under the key
    [None] or fills the missing fields with [None], so the check of the
    row fails; hence a CSV file holding a non-blank data record whose
    length differs from the header's never passes the validation. *)
Theorem ragged_records_refused
  (args : arguments) (env : environment) (st : state)
  (fieldnames : list string) (data : list Csv.record) (record : Csv.record) :
  csv_given args = true ->
  csv_input env = CsvRecords (fieldnames :: data) ->
  In record data -> record <> [] ->
  List.length record <> List.length fieldnames ->
  check_row (Csv.make_row fieldnames record) <> None
  /\ exists e,
       validateCsv args env st = (Fail (SystemExit (CsvAttribute e)), st).
Proof.
  intros Hgiven Hinput Hin Hblank Hlen.
  split; [now apply ragged_row_rejected|].
  rewrite (validateCsv_given _ _ _ _ Hgiven Hinput).
  destruct (check_rows (Csv.DictReader (fieldnames :: data)) []) as [e|l] eqn:E.
  - now exists e.
  - exfalso. destruct (check_rows_accepts _ _ _ E) as [_ Hall].
    apply (ragged_row_rejected fieldnames record Hlen).
    apply Hall. simpl. apply in_map. apply filter_In. split; [exact Hin|].
    destruct record; [congruence | reflexivity].
Qed.

Lemma ragged_records_refused_witness :
  exists e,
    validateCsv (Sample.args (Some "/data/in.csv") false)
      (Sample.env Sample.template
         [["transmitter.lat"; "transmitter.lon"]; ["5.5"; "6.5"]; ["7.5"]] [])
      initial
    = (Fail (SystemExit (CsvAttribute e)), initial).
Proof.
  exact (proj2 (ragged_records_refused (Sample.args (Some "/data/in.csv") false)
                  (Sample.env Sample.template
                     [["transmitter.lat"; "transmitter.lon"]; ["5.5"; "6.5"]; ["7.5"]] [])
                  initial ["transmitter.lat"; "transmitter.lon"]
                  [["5.5"; "6.5"]; ["7.5"]] ["7.5"]
                  eq_refl eq_refl (or_intror (or_introl eq_refl))
                  ltac:(discriminate) ltac:(discriminate))).
Defined.

(** X12: what the rows of a validated CSV file look like.  When the
    validation returns rows, every item of every row has a non-empty string
    for its key, with at most one dot, and a non-empty string for its value;
    all rows have the same keys in the same order; and merging such a row
    can only fail by an uncaught KeyError or TypeError, never by the exit
    of line 139. *)
Theorem validated_rows_shape
  (args : arguments) (env : environment) (st st' : state) (rows : list dict) :
  validateCsv args env st = (Ok (Some rows), st') ->
  (forall row key value, In row rows -> In (key, value) row ->
     exists header cell,
       key = KStr header /\ value = PStr cell
       /\ header <> "" /\ cell <> "" /\ count_char "." header <= 1)
  /\ (forall row row', In row rows -> In row' rows -> map fst row = map fst row')
  /\ (forall row t f, In row rows -> customiseJsonFromCsvRow t row = Fail f ->
        f = Uncaught KeyError \/ f = Uncaught TypeError).
Proof.
  intros H.
  destruct (validateCsv_ok_inv _ _ _ _ _ H)
    as [_ [[_ Hc]|[_ [records (_ & Hc & Hcheck)]]]]; [discriminate|].
  injection Hc as ->.
  destruct (check_rows_accepts _ _ _ Hcheck) as [_ Hall].
  assert (Hitems : forall row key value,
             In row (Csv.DictReader records) -> In (key, value) row ->
             exists header cell,
               key = KStr header /\ value = PStr cell
               /\ header <> "" /\ cell <> "" /\ count_char "." header <= 1).
  { intros row key value Hrow Hitem.
    pose proof (proj1 (check_row_clean row) (Hall row Hrow) _ Hitem) as Hci.
    assert (Hshape : csv_item (key, value)).
    { destruct records as [|fs data]; [destruct Hrow|]. simpl in Hrow.
      apply in_map_iff in Hrow. destruct Hrow as [rec [<- _]].
      exact (proj1 (Forall_forall _ _) (make_row_items fs rec) _ Hitem). }
    unfold check_item in Hci.
    destruct Hshape as [[s [Hk [Hv|[c Hv]]]]|[Hk _]]; simpl in Hk; subst key;
      try (simpl in Hv; subst value).
    - simpl in Hci. rewrite orb_true_r in Hci. discriminate.
    - simpl in Hci.
      destruct (String.eqb s "") eqn:Es; [discriminate|].
      destruct (String.eqb c "") eqn:Ec; [discriminate|]. simpl in Hci.
      rewrite split_length in Hci.
      destruct (Nat.ltb 2 (S (count_char "." s))) eqn:El; [discriminate|].
      apply Nat.ltb_ge in El. apply String.eqb_neq in Es, Ec.
      exists s, c. repeat split; auto. lia.
    - simpl in Hci. discriminate. }
  split; [exact Hitems|]. split.
  - intros row row' Hrow Hrow'.
    destruct records as [|fs data]; [destruct Hrow|]. simpl in Hrow, Hrow'.
    apply in_map_iff in Hrow. destruct Hrow as [rec [<- Hrec]].
    apply in_map_iff in Hrow'. destruct Hrow' as [rec' [<- Hrec']].
    assert (Hl : forall r, In r (filter (fun r => negb (Csv.blank r)) data) ->
                 List.length r = List.length fs).
    { intros r Hr.
      destruct (Nat.eq_dec (List.length r) (List.length fs)) as [E|E]; [exact E|].
      exfalso. apply (ragged_row_rejected fs r E).
      apply Hall. simpl. now apply in_map. }
    pose proof (Hl _ Hrec) as L1. pose proof (Hl _ Hrec') as L2.
    unfold Csv.make_row. rewrite L1, L2, Nat.ltb_irrefl.
    apply zip_dict_keys; [congruence | reflexivity].
  - intros row t f Hrow. apply customise_shallow_failure.
    intros k v Hin.
    destruct (Hitems row k v Hrow Hin) as [s [c (-> & _ & _ & _ & Hd)]].
    simpl. rewrite split_length. lia.
Qed.

Lemma validated_rows_shape_witness :
  map fst [(KStr "transmitter.lat", PStr "5.5"); (KStr "site", PStr "A")]
  = map fst [(KStr "transmitter.lat", PStr "6.5"); (KStr "site", PStr "B")].
Proof.
  destruct (validated_rows_shape (Sample.args (Some "/data/in.csv") false)
              (Sample.env Sample.template
                 [["transmitter.lat"; "site"]; ["5.5"; "A"]; ["6.5"; "B"]] [])
              initial initial _ eq_refl) as [_ [Hkeys _]].
  apply Hkeys; simpl; auto.
Defined.

(** ** Overrides and their targets *)

Lemma dict_set_set (k : pykey) (v w : pyval) (d : dict) :
  dict_set k w (dict_set k v d) = dict_set k w d.
Proof.
  induction d as [|[k0 v0] d IH]; simpl.
  - now rewrite key_eqb_refl.
  - destruct (key_eqb k k0) eqn:E; simpl; rewrite E; [reflexivity | now rewrite IH].
Qed.

Lemma dict_set_comm (k k' : pykey) (v v' : pyval) (d : dict) :
  k <> k' -> dict_get k d <> None ->
  dict_set k v (dict_set k' v' d) = dict_set k' v' (dict_set k v d).
Proof.
  intros Hne. induction d as [|[k0 v0] d IH]; simpl; [congruence|].
  destruct (key_eqb k k0) eqn:E, (key_eqb k' k0) eqn:E'; simpl;
    rewrite ?E, ?E'; intros Hget.
  - apply key_eqb_eq in E, E'. congruence.
  - reflexivity.
  - reflexivity.
  - now rewrite IH.
Qed.

Lemma dict_get_set (k k' : pykey) (v : pyval) (d : dict) :
  dict_get k' (dict_set k v d)
  = if key_eqb k' k then Some v else dict_get k' d.
Proof.
  destruct (key_eqb k' k) eqn:E.
  - apply key_eqb_eq in E. subst. apply dict_get_set_same.
  - apply dict_get_set_other. intros ->. now rewrite key_eqb_refl in E.
Qed.

Lemma dict_set_length (k : pykey) (v : pyval) (d : dict) :
  List.length d <= List.length (dict_set k v d).
Proof.
  induction d as [|[k0 v0] d IH]; simpl; [lia|].
  destruct (key_eqb k k0); simpl; lia.
Qed.

(** What line 135 or line 137 does for a given target. *)
Lemma override_target (t : pyval) (key : pykey) (value : pyval) :
  override t key value =
  match target_of key with
  | Some (Root k) => setitem t k value
  | Some (Nested a b) =>
      match getitem t (KStr a) with
      | Ok inner =>
          match setitem inner (KStr b) value with
          | Ok inner' => setitem t (KStr a) inner'
          | Fail f => Fail f
          end
      | Fail f => Fail f
      end
  | None => Fail (SystemExit MaximumDepth)
  end.
Proof.
  unfold override, target_of.
  pose proof (split_not_nil "." (str key)) as Hnil.
  destruct (split "." (str key)) as [|a [|b [|c l]]]; simpl; congruence.
Qed.

(** The shape of a successful override. *)
Lemma override_ok_inv (t t1 : pyval) (key : pykey) (value : pyval) :
  override t key value = Ok t1 ->
  exists d,
    t = PDict d
    /\ ((target_of key = Some (Root key) /\ t1 = PDict (dict_set key value d))
        \/ exists a b inner,
             target_of key = Some (Nested a b)
             /\ dict_get (KStr a) d = Some (PDict inner)
             /\ t1 = PDict (dict_set (KStr a)
                              (PDict (dict_set (KStr b) value inner)) d)).
Proof.
  rewrite override_target. unfold target_of.
  destruct (split "." (str key)) as [|a [|b [|c l]]]; simpl; try discriminate.
  - destruct t; simpl; try discriminate. intros H. injection H as <-.
    exists d. split; [reflexivity|]. left. auto.
  - destruct t; simpl; try discriminate.
    destruct (dict_get (KStr a) d) as [inner|] eqn:E; [|discriminate].
    destruct inner; simpl; try discriminate.
    intros H. injection H as <-.
    exists d. split; [reflexivity|]. right. exists a, b, d0. auto.
Qed.

Lemma override_again (t x : pyval) (key : pykey) (v w : pyval) :
  override t key v = Ok x -> override x key w = override t key w.
Proof.
  intros H. destruct (override_ok_inv _ _ _ _ H)
    as [d [-> [[Htg ->]|[a [b [inner (Htg & Hin & ->)]]]]]];
    rewrite !override_target, Htg; simpl.
  - now rewrite dict_set_set.
  - rewrite dict_get_set_same, Hin. simpl.
    now rewrite !dict_set_set.
Qed.

(** X13: the last write wins.  When an override succeeds, overriding the
    same key again behaves as if the first override had not happened, so
    repeating it with the same value changes nothing; the template is a
    mapping before and after, no root field is lost and none changes place;
    and whether an override succeeds does not depend on the value. *)
Theorem override_last_write_wins
  (templateJson updated : pyval) (key : pykey) (value value' : pyval) :
  override templateJson key value = Ok updated ->
  override updated key value' = override templateJson key value'
  /\ override updated key value = Ok updated
  /\ (exists again, override templateJson key value' = Ok again)
  /\ exists d d',
       templateJson = PDict d /\ updated = PDict d'
       /\ (forall k, dict_get k d <> None -> dict_get k d' <> None)
       /\ firstn (List.length d) (map fst d') = map fst d.
Proof.
  intros H.
  assert (Hlast : forall w, override updated key w = override templateJson key w).
  { intros w. destruct (override_ok_inv _ _ _ _ H)
      as [d [-> [[Htg ->]|[a [b [inner (Htg & Hin & ->)]]]]]];
      rewrite !override_target, Htg; simpl.
    - now rewrite dict_set_set.
    - rewrite dict_get_set_same, Hin. simpl.
      now rewrite !dict_set_set. }
  split; [apply Hlast|]. split; [now rewrite Hlast|].
  split.
  - destruct (override_ok_inv _ _ _ _ H)
      as [d [-> [[Htg ->]|[a [b [inner (Htg & Hin & ->)]]]]]];
      rewrite override_target, Htg; simpl; [eauto|].
    rewrite Hin. simpl. eauto.
  - assert (Hkeep : forall k x (d : dict),
               (forall k', dict_get k' d <> None ->
                           dict_get k' (dict_set k x d) <> None)
               /\ firstn (List.length d) (map fst (dict_set k x d)) = map fst d).
    { intros k x d. split.
      - intros k' Hk'. rewrite dict_get_set.
        destruct (key_eqb k' k); [discriminate | exact Hk'].
      - induction d as [|[k0 v0] d IH]; simpl; [reflexivity|].
        destruct (key_eqb k k0); simpl.
        + now rewrite firstn_all2 by (rewrite length_map; lia).
        + now rewrite IH. }
    destruct (override_ok_inv _ _ _ _ H)
      as [d [-> [[Htg ->]|[a [b [inner (Htg & Hin & ->)]]]]]];
      eexists; eexists; (split; [reflexivity|]); (split; [reflexivity|]);
      apply Hkeep.
Qed.

Lemma override_last_write_wins_witness :
  override
    (PDict [(KStr "transmitter", PDict [(KStr "lat", PStr "5.5"); (KStr "lon", PFloat 2.0)])])
    (KStr "transmitter.lat") (PStr "6.5")
  = override Sample.template (KStr "transmitter.lat") (PStr "6.5").
Proof.
  exact (proj1 (override_last_write_wins Sample.template _
                  (KStr "transmitter.lat") (PStr "5.5") (PStr "6.5") eq_refl)).
Defined.

Lemma store_read_other (t t1 : pyval) (key : pykey) (value : pyval)
  (tg tg' : target) :
  override t key value = Ok t1 -> target_of key = Some tg' ->
  independent tg tg' -> read tg t1 = read tg t.
Proof.
  intros H Htg' Hind.
  destruct (override_ok_inv _ _ _ _ H)
    as [d [-> [[Htg ->]|[a [b [inner (Htg & Hin & ->)]]]]]];
    rewrite Htg in Htg'; injection Htg' as <-;
    destruct tg as [k|a0 b0]; simpl in *; unfold getitem2; simpl.
  - now rewrite dict_get_set_other.
  - rewrite dict_get_set_other; [reflexivity|]. congruence.
  - rewrite dict_get_set_other; [reflexivity|]. congruence.
  - destruct (String.eqb a0 a) eqn:E.
    + apply String.eqb_eq in E. subst a0.
      rewrite dict_get_set_same, Hin. simpl.
      rewrite dict_get_set_other; [reflexivity|].
      intros E. injection E as ->. destruct Hind; congruence.
    + apply String.eqb_neq in E.
      rewrite dict_get_set_other; [reflexivity|]. congruence.
Qed.

Lemma customise_read_other (t merged : pyval) (row : dict) (tg : target) :
  customiseJsonFromCsvRow t row = Ok merged ->
  (forall key value tg', In (key, value) row -> target_of key = Some tg' ->
                         independent tg tg') ->
  read tg merged = read tg t.
Proof.
  revert t. induction row as [|[k v] row IH]; intros t H Hind; simpl in H.
  - now injection H as <-.
  - destruct (override t k v) as [t1|] eqn:E; [|discriminate].
    rewrite (IH t1 H).
    + destruct (override_ok_inv _ _ _ _ E)
        as [d [_ [[Htg _]|[a [b [inner (Htg & _)]]]]]];
        eapply store_read_other; eauto; eapply Hind; eauto; now left.
    + intros key value tg' Hin. apply (Hind key value tg'). now right.
Qed.

Lemma override_read_same (t t1 : pyval) (key : pykey) (value : pyval) (tg : target) :
  override t key value = Ok t1 -> target_of key = Some tg ->
  read tg t1 = Ok value.
Proof.
  intros H Htg.
  destruct (override_ok_inv _ _ _ _ H)
    as [d [-> [[Htg' ->]|[a [b [inner (Htg' & Hin & ->)]]]]]];
    rewrite Htg' in Htg; injection Htg as <-; simpl; unfold getitem2; simpl.
  - now rewrite dict_get_set_same.
  - rewrite dict_get_set_same. simpl. now rewrite dict_get_set_same.
Qed.

(** X14: the fields a row does not address keep their values, at the root
    and one level down.  When a row merges, every target (a root field, or
    a field of the mapping under a root field) that is independent of the
    targets of all keys of the row reads the same after the merge as
    before, present or absent, and the template is still a mapping that
    has lost no root field. *)
Theorem merge_keeps_other_fields
  (templateJson merged : pyval) (row : dict) (tg : target) :
  customiseJsonFromCsvRow templateJson row = Ok merged ->
  (forall key value tg', In (key, value) row -> target_of key = Some tg' ->
                         independent tg tg') ->
  read tg merged = read tg templateJson
  /\ (forall d, templateJson = PDict d ->
        exists d', merged = PDict d'
                   /\ List.length d <= List.length d'
                   /\ forall k, dict_get k d <> None -> dict_get k d' <> None).
Proof.
  intros H Hind. split; [now apply (customise_read_other _ _ row)|].
  clear Hind. revert templateJson H.
  induction row as [|[k v] row IH]; intros t H d ->; simpl in H.
  - injection H as <-. exists d. auto.
  - destruct (override (PDict d) k v) as [t1|] eqn:E; [|discriminate].
    destruct (override_ok_inv _ _ _ _ E)
      as [d0 [Hd [[_ ->]|[a [b [inner (_ & _ & ->)]]]]]];
      injection Hd as <-;
      destruct (IH _ H _ eq_refl) as [d' (-> & Hlen & Hkeys)];
      exists d'; (split; [reflexivity|]); split.
    + pose proof (dict_set_length k v d). lia.
    + intros k' Hk'. apply Hkeys. rewrite dict_get_set.
      destruct (key_eqb k' k); [discriminate | exact Hk'].
    + pose proof (dict_set_length (KStr a)
                    (PDict (dict_set (KStr b) v inner)) d). lia.
    + intros k' Hk'. apply Hkeys. rewrite dict_get_set.
      destruct (key_eqb k' (KStr a)); [discriminate | exact Hk'].
Qed.

Lemma merge_keeps_other_fields_witness :
  read (Nested "transmitter" "lon")
    (PDict [(KStr "transmitter",
             PDict [(KStr "lat", PStr "5.5"); (KStr "lon", PFloat 2.0)])])
  = read (Nested "transmitter" "lon") Sample.template.
Proof.
  refine (proj1 (merge_keeps_other_fields Sample.template _
                   [(KStr "transmitter.lat", PStr "5.5")]
                   (Nested "transmitter" "lon") eq_refl _)).
  intros key value tg' [H|[]] Htg. injection H as <- _.
  injection Htg as <-. right. discriminate.
Defined.

(** X15: every override of a row can be read back.  When a row merges,
    the value of each of its items is found at the target of the item's
    key in the merged data, provided no later item of the row points at
    that target, at its parent or at a field inside it. *)
Theorem merge_reads_back
  (templateJson merged : pyval) (before after : dict)
  (key : pykey) (value : pyval) (tg : target) :
  customiseJsonFromCsvRow templateJson (before ++ (key, value) :: after) = Ok merged ->
  target_of key = Some tg ->
  (forall key' value' tg', In (key', value') after -> target_of key' = Some tg' ->
                           independent tg tg') ->
  read tg merged = Ok value.
Proof.
  intros H Htg Hind.
  rewrite customise_app in H.
  destruct (customiseJsonFromCsvRow templateJson before) as [t0|] eqn:E0;
    [|discriminate].
  simpl in H.
  destruct (override t0 key value) as [t1|] eqn:E1; [|discriminate].
  rewrite (customise_read_other t1 merged after tg H Hind).
  eapply override_read_same; eauto.
Qed.

Lemma merge_reads_back_witness :
  read (Nested "transmitter" "lat")
    (PDict [(KStr "transmitter",
             PDict [(KStr "lat", PStr "5.5"); (KStr "lon", PStr "6.5")])])
  = Ok (PStr "5.5").
Proof.
  refine (merge_reads_back Sample.template _ []
            [(KStr "transmitter.lon", PStr "6.5")]
            (KStr "transmitter.lat") (PStr "5.5") (Nested "transmitter" "lat")
            eq_refl eq_refl _).
  intros key' value' tg' [H|[]] Htg. injection H as <- _.
  injection Htg as <-. right. discriminate.
Defined.

(** ** Updating in place against merging into a fresh copy *)

Lemma read_override_ok (t : pyval) (key : pykey) (tg : target) (v0 w : pyval) :
  target_of key = Some tg -> read tg t = Ok v0 ->
  exists t', override t key w = Ok t'.
Proof.
  intros Htg Hread. rewrite override_target, Htg.
  destruct tg as [k|a b]; simpl in *.
  - destruct t; simpl in *; try discriminate. eauto.
  - unfold getitem2 in Hread.
    destruct (getitem t (KStr a)) as [inner|] eqn:E; [|discriminate].
    destruct inner; simpl in *; try discriminate.
    destruct t; simpl in *; try discriminate. eauto.
Qed.

Lemma override_commute (t t1 t' : pyval) (k k' : pykey) (w v' v0 : pyval)
  (tg tg' : target) :
  target_of k = Some tg -> target_of k' = Some tg' -> independent tg tg' ->
  read tg t = Ok v0 ->
  override t k' v' = Ok t1 -> override t k w = Ok t' ->
  override t1 k w = override t' k' v'.
Proof.
  intros Htg Htg' Hind Hread H1 H2.
  destruct (override_ok_inv _ _ _ _ H1)
    as [d [-> [[T1 ->]|[a' [b' [inner' (T1 & I1 & ->)]]]]]];
    destruct (override_ok_inv _ _ _ _ H2)
      as [d2 [Hd [[T2 ->]|[a [b [inner (T2 & I2 & ->)]]]]]];
    injection Hd as <-;
    rewrite T1 in Htg'; rewrite T2 in Htg;
    injection Htg as <-; injection Htg' as <-;
    rewrite !override_target, T1, T2; simpl in *.
  - assert (G : dict_get k d <> None)
      by (intros G; rewrite G in Hread; discriminate).
    now rewrite (dict_set_comm k k').
  - rewrite (dict_get_set_other k' (KStr a)) by congruence.
    rewrite I2. simpl.
    rewrite (dict_set_comm (KStr a) k'); auto; congruence.
  - assert (G : dict_get k d <> None)
      by (intros G; rewrite G in Hread; discriminate).
    rewrite (dict_get_set_other k (KStr a')) by congruence.
    rewrite I1. simpl.
    now rewrite (dict_set_comm k (KStr a')).
  - unfold getitem2 in Hread. simpl in Hread. rewrite I2 in Hread. simpl in Hread.
    assert (G : dict_get (KStr b) inner <> None)
      by (intros G; rewrite G in Hread; discriminate).
    destruct (string_dec a a') as [<-|Hne].
    + rewrite !dict_get_set_same. simpl.
      rewrite I2 in I1. injection I1 as <-.
      rewrite !dict_set_set.
      rewrite (dict_set_comm (KStr b) (KStr b')); auto.
      destruct Hind; congruence.
    + rewrite (dict_get_set_other (KStr a') (KStr a)) by congruence.
      rewrite (dict_get_set_other (KStr a) (KStr a')) by congruence.
      rewrite I1, I2. simpl.
      rewrite (dict_set_comm (KStr a) (KStr a')); auto; congruence.
Qed.

Lemma customise_then_override (rest : dict) (x t1 : pyval) (k : pykey)
  (tg : target) (v0 w : pyval) :
  target_of k = Some tg -> read tg x = Ok v0 ->
  (forall k', In k' (map fst rest) -> independent_keys k k') ->
  customiseJsonFromCsvRow x rest = Ok t1 ->
  exists x' v1,
    override x k w = Ok x'
    /\ read tg t1 = Ok v1
    /\ override t1 k w = customiseJsonFromCsvRow x' rest.
Proof.
  intros Htg. revert x t1 v0.
  induction rest as [|[k' v'] rest IH]; intros x t1 v0 Hread Hind H; simpl in H.
  - injection H as <-.
    destruct (read_override_ok x k tg v0 w Htg Hread) as [x' Hx'].
    exists x', v0. simpl. auto.
  - destruct (override x k' v') as [x1|] eqn:E1; [|discriminate].
    assert (Hk' : exists tg', target_of k' = Some tg').
    { destruct (override_ok_inv _ _ _ _ E1)
        as [d [_ [[T _]|[a [b [inner (T & _)]]]]]]; eauto. }
    destruct Hk' as [tg' Htg'].
    assert (Hi : independent tg tg').
    { apply (Hind k'); simpl; auto. }
    assert (Hread1 : read tg x1 = Ok v0).
    { rewrite (store_read_other x x1 k' v' tg tg' E1 Htg' Hi). exact Hread. }
    destruct (IH x1 t1 v0 Hread1) as [x1' [v1 (Hx1' & Hr & Heq)]]; auto.
    { intros k'' Hin. apply Hind. simpl. auto. }
    destruct (read_override_ok x k tg v0 w Htg Hread) as [x' Hx'].
    exists x', v1. split; [exact Hx'|]. split; [exact Hr|].
    rewrite Heq. simpl.
    rewrite <- (override_commute x x1 x' k k' w v' v0 tg tg' Htg Htg' Hi Hread E1 Hx').
    now rewrite Hx1'.
Qed.

Lemma customise_same_keys (r1 r2 : dict) (u t1 : pyval) :
  map fst r1 = map fst r2 -> pairwise_independent (map fst r1) ->
  customiseJsonFromCsvRow u r1 = Ok t1 ->
  customiseJsonFromCsvRow t1 r2 = customiseJsonFromCsvRow u r2.
Proof.
  revert r2 u t1.
  induction r1 as [|[k v] r1 IH]; intros [|[k0 w] r2] u t1 Hkeys Hind H;
    simpl in Hkeys; try discriminate.
  - simpl in H. now injection H as <-.
  - injection Hkeys as <- Hkeys. destruct Hind as [Hk Hrest].
    simpl in H.
    destruct (override u k v) as [x|] eqn:E; [|discriminate].
    assert (Htg : exists tg, target_of k = Some tg).
    { destruct (override_ok_inv _ _ _ _ E)
        as [d [_ [[T _]|[a [b [inner (T & _)]]]]]]; eauto. }
    destruct Htg as [tg Htg].
    pose proof (override_read_same u x k v tg E Htg) as Hread.
    destruct (customise_then_override r1 x t1 k tg v w Htg Hread Hk H)
      as [x' [v1 (Hx' & Hr & Heq)]].
    destruct (read_override_ok t1 k tg v1 w Htg Hr) as [t1' Ht1'].
    rewrite (override_again u x k v w E) in Hx'.
    simpl. rewrite Ht1', Hx'.
    apply IH; auto. now rewrite <- Heq.
Qed.

Lemma merges_fresh_from (t : pyval) (keys : list pykey) (rows : list dict)
  (row0 : dict) (m : pyval) :
  pairwise_independent keys ->
  map fst row0 = keys ->
  (forall row, In row rows -> map fst row = keys) ->
  customiseJsonFromCsvRow t row0 = Ok m ->
  merges m rows = fresh_merges t rows.
Proof.
  intros Hind. revert row0 m.
  induction rows as [|row rows IH]; intros row0 m H0 Hrows Hm; simpl; [reflexivity|].
  assert (Hrow : map fst row = keys) by (apply Hrows; now left).
  rewrite (customise_same_keys row0 row t m); auto; try congruence.
  destruct (customiseJsonFromCsvRow t row) as [m'|] eqn:E; [|reflexivity].
  f_equal. apply (IH row m'); auto.
  intros r Hr. apply Hrows. now right.
Qed.

(** X16: when the keys of the rows are pairwise independent, updating
    the template in place gives the same data as merging into a fresh copy.
    If all rows have the same keys in the same order, and no key points at
    the target of another key, at its parent or at a field inside it, then
    the data built for every row from the result of the row before it is
    the data that merging the row into the loaded template gives, and these
    are the requests the loop sends. *)
Theorem inplace_matches_fresh_copy
  (rt : string) (args : arguments) (env : environment) (st : state)
  (keys : list pykey) (rows : list dict) :
  pairwise_independent keys ->
  (forall row, In row rows -> map fst row = keys) ->
  merges (jsonTemplate st) rows = fresh_merges (jsonTemplate st) rows
  /\ exists n,
       posts (events (snd (forRows (Some rt) args env rows st)))
       = posts (events st)
         ++ map (request args rt) (firstn n (fresh_merges (jsonTemplate st) rows)).
Proof.
  intros Hind Hrows.
  assert (H : merges (jsonTemplate st) rows = fresh_merges (jsonTemplate st) rows).
  { destruct rows as [|row rows]; simpl; [reflexivity|].
    destruct (customiseJsonFromCsvRow (jsonTemplate st) row) as [m|] eqn:E;
      [|reflexivity].
    f_equal. apply (merges_fresh_from _ keys rows row m); auto.
    - apply Hrows. now left.
    - intros r Hr. apply Hrows. now right. }
  split; [exact H|].
  destruct (forRows_posts_merges rt args env rows st) as [n (_ & Hp & _)].
  exists n. now rewrite <- H.
Qed.

Lemma inplace_matches_fresh_copy_witness :
  merges Sample.template
    [[(KStr "transmitter.lat", PStr "5.5"); (KStr "transmitter.lon", PStr "1")];
     [(KStr "transmitter.lat", PStr "6.5"); (KStr "transmitter.lon", PStr "2")]]
  = fresh_merges Sample.template
    [[(KStr "transmitter.lat", PStr "5.5"); (KStr "transmitter.lon", PStr "1")];
     [(KStr "transmitter.lat", PStr "6.5"); (KStr "transmitter.lon", PStr "2")]].
Proof.
  refine (proj1 (inplace_matches_fresh_copy "area"
                   (Sample.args (Some "/data/in.csv") false)
                   (Sample.env Sample.template [] [])
                   {| jsonTemplate := Sample.template; events := [] |}
                   [KStr "transmitter.lat"; KStr "transmitter.lon"] _ _ _)).
  - simpl. repeat split; try tauto.
    intros k' [<-|[]] tg tg' Htg Htg'.
    injection Htg as <-. injection Htg' as <-. right. discriminate.
  - intros row [<-|[<-|[]]]; reflexivity.
Defined.

(** ** Headers and their targets *)

Lemma split_one (sep : ascii) (s p : string) :
  split sep s = [p] -> s = p.
Proof.
  revert p. induction s as [|c s IH]; intros p H; simpl in H.
  - now injection H as <-.
  - destruct (Ascii.eqb c sep).
    + pose proof (split_not_nil sep s). destruct (split sep s); congruence.
    + destruct (split sep s) as [|q qs] eqn:E;
        [now destruct (split_not_nil sep s)|].
      injection H as <- ->. now rewrite (IH q eq_refl).
Qed.

Lemma split_two (sep : ascii) (s a b : string) :
  split sep s = [a; b] -> s = (a ++ String sep b)%string.
Proof.
  revert a. induction s as [|c s IH]; intros a H; simpl in H; [discriminate|].
  destruct (Ascii.eqb c sep) eqn:Ec.
  - apply Ascii.eqb_eq in Ec. subst c. injection H as <- H.
    simpl. now rewrite (split_one _ _ _ H).
  - destruct (split sep s) as [|q qs] eqn:E; [discriminate|].
    injection H as <- ->. simpl. now rewrite (IH q eq_refl).
Qed.

Lemma nested_key (key : pykey) (a b : string) :
  target_of key = Some (Nested a b) -> key = KStr (a ++ String "." b)%string.
Proof.
  unfold target_of. destruct key as [|s]; simpl; [discriminate|].
  destruct (split "." s) as [|x [|y [|z l]]] eqn:E; try discriminate.
  intros H. injection H as <- <-. now rewrite (split_two _ _ _ _ E).
Qed.

Lemma root_key_target (key : pykey) (k : pykey) :
  target_of key = Some (Root k) -> k = key.
Proof.
  unfold target_of.
  destruct (split "." (str key)) as [|x [|y [|z l]]]; try discriminate.
  intros H. now injection H as <-.
Qed.

Lemma dict_set_keys_In (k k' : pykey) (v : pyval) (d : dict) :
  In k' (map fst (dict_set k v d)) -> In k' (map fst d) \/ k' = k.
Proof.
  induction d as [|[k0 v0] d IH]; simpl.
  - intros [H|[]]; auto.
  - destruct (key_eqb k k0); simpl; [tauto|].
    intros [H|H]; [auto|]. destruct (IH H); auto.
Qed.

Lemma dict_set_NoDup (k : pykey) (v : pyval) (d : dict) :
  NoDup (map fst d) -> NoDup (map fst (dict_set k v d)).
Proof.
  induction d as [|[k0 v0] d IH]; simpl; intros H.
  - constructor; [tauto | constructor].
  - destruct (key_eqb k k0) eqn:E; simpl; [exact H|].
    inversion H as [|x l Hnot Hnd]; subst. constructor; [|auto].
    intros Hin. destruct (dict_set_keys_In _ _ _ _ Hin) as [H1| ->]; [auto|].
    now rewrite key_eqb_refl in E.
Qed.

Lemma zip_dict_NoDup (fs : list string) (cs : Csv.record) (d : dict) :
  NoDup (map fst d) -> NoDup (map fst (Csv.zip_dict fs cs d)).
Proof.
  revert cs d. induction fs as [|f fs IH]; intros cs d H; simpl; [exact H|].
  destruct cs as [|c cs]; [exact H|]. apply IH. now apply dict_set_NoDup.
Qed.

Lemma zip_dict_keys_In (fs : list string) (cs : Csv.record) (d : dict) (k : pykey) :
  In k (map fst (Csv.zip_dict fs cs d)) ->
  In k (map fst d) \/ exists f, In f fs /\ k = KStr f.
Proof.
  revert cs d. induction fs as [|f fs IH]; intros cs d H; simpl in H; [auto|].
  destruct cs as [|c cs]; [auto|].
  destruct (IH _ _ H) as [H1|[g [Hg ->]]].
  - destruct (dict_set_keys_In _ _ _ _ H1) as [H2| ->]; [auto|].
    right. exists f. simpl. auto.
  - right. exists g. simpl. auto.
Qed.

Lemma pairwise_independent_NoDup (keys : list pykey) :
  NoDup keys ->
  (forall k k', In k keys -> In k' keys -> k <> k' -> independent_keys k k') ->
  pairwise_independent keys.
Proof.
  induction keys as [|k keys IH]; intros Hnd H; simpl; [exact I|].
  inversion Hnd as [|x l Hnot Hnd']; subst. split.
  - intros k' Hin. apply H; simpl; auto. intros ->. contradiction.
  - apply IH; [exact Hnd'|]. intros k1 k2 H1 H2. apply H; simpl; auto.
Qed.

(** X17: for a validated CSV file in which no plain header is the parent
    of a dotted header (such as [transmitter] beside [transmitter.lat]),
    the data built in place for every row is what merging that row into the
    loaded template gives: in such a run no override of one row reaches the
    request of another row. *)
Theorem validated_batch_matches_fresh_copy
  (args : arguments) (env : environment) (st st' : state)
  (fieldnames : list string) (data : list Csv.record) (rows : list dict)
  (templateJson : pyval) :
  csv_input env = CsvRecords (fieldnames :: data) ->
  validateCsv args env st = (Ok (Some rows), st') ->
  (forall f g a b, In f fieldnames -> In g fieldnames ->
                   split "." g = [a; b] -> f <> a) ->
  merges templateJson rows = fresh_merges templateJson rows.
Proof.
  intros Hinput Hvalid Hparent.
  destruct (validateCsv_ok_inv _ _ _ _ _ Hvalid)
    as [_ [[_ Hc]|[_ [records (Hin & Hc & Hcheck)]]]]; [discriminate|].
  injection Hc as ->. rewrite Hinput in Hin. injection Hin as <-.
  destruct (check_rows_accepts _ _ _ Hcheck) as [_ Hall].
  set (keys := map fst (Csv.zip_dict fieldnames fieldnames [])).
  assert (Hkeys : forall row, In row (Csv.DictReader (fieldnames :: data)) ->
                              map fst row = keys).
  { intros row Hrow. simpl in Hrow.
    apply in_map_iff in Hrow. destruct Hrow as [rec [<- Hrec]].
    assert (L : List.length rec = List.length fieldnames).
    { destruct (Nat.eq_dec (List.length rec) (List.length fieldnames)) as [E|E];
        [exact E|].
      exfalso. apply (ragged_row_rejected fieldnames rec E).
      apply Hall. simpl. now apply in_map. }
    unfold Csv.make_row. rewrite L, Nat.ltb_irrefl.
    apply zip_dict_keys; [exact L | reflexivity]. }
  assert (Hind : pairwise_independent keys).
  { apply pairwise_independent_NoDup.
    - apply zip_dict_NoDup. constructor.
    - intros k k' Hk Hk' Hne tg tg' Htg Htg'.
      destruct (zip_dict_keys_In _ _ _ _ Hk) as [[]|[f [Hf ->]]].
      destruct (zip_dict_keys_In _ _ _ _ Hk') as [[]|[g [Hg ->]]].
      destruct tg as [r|a b], tg' as [r'|a' b']; simpl.
      + apply root_key_target in Htg, Htg'. congruence.
      + apply root_key_target in Htg. subst r.
        unfold target_of in Htg'. simpl in Htg'.
        destruct (split "." g) as [|x [|y [|z l]]] eqn:E; try discriminate.
        injection Htg' as <- <-.
        intros H. injection H as H. exact (Hparent f g x y Hf Hg E H).
      + apply root_key_target in Htg'. subst r'.
        unfold target_of in Htg. simpl in Htg.
        destruct (split "." f) as [|x [|y [|z l]]] eqn:E; try discriminate.
        injection Htg as <- <-.
        intros H. injection H as H. exact (Hparent g f x y Hg Hf E H).
      + apply nested_key in Htg, Htg'.
        destruct (string_dec a a') as [->|Ha]; [|auto].
        destruct (string_dec b b') as [->|Hb]; [|auto].
        congruence. }
  destruct (Csv.DictReader (fieldnames :: data)) as [|row rows] eqn:Erows;
    simpl; [reflexivity|].
  destruct (customiseJsonFromCsvRow templateJson row) as [m|] eqn:E; [|reflexivity].
  f_equal. apply (merges_fresh_from _ keys rows row m); auto.
  - apply Hkeys. now left.
  - intros r Hr. apply Hkeys. now right.
Qed.

Lemma validated_batch_matches_fresh_copy_witness :
  let rows :=
    [[(KStr "transmitter.lat", PStr "5.5"); (KStr "site", PStr "A")];
     [(KStr "transmitter.lat", PStr "6.5"); (KStr "site", PStr "B")]] in
  merges Sample.template rows = fresh_merges Sample.template rows.
Proof.
  cbv zeta.
  refine (validated_batch_matches_fresh_copy
            (Sample.args (Some "/data/in.csv") false)
            (Sample.env Sample.template
               [["transmitter.lat"; "site"]; ["5.5"; "A"]; ["6.5"; "B"]] [])
            initial initial ["transmitter.lat"; "site"]
            [["5.5"; "A"]; ["6.5"; "B"]] _ Sample.template eq_refl eq_refl _).
  intros f g a b [<-|[<-|[]]] [<-|[<-|[]]] H; simpl in H;
    try discriminate; injection H as <- <-; discriminate.
Defined.

(** ** When a run completes *)

Lemma forRows_all_ok (rt : string) (args : arguments) (env : environment)
  (rows : list dict) (st : state) :
  (forall n url json, exists text, server env n url json = Response 200 text) ->
  List.length (merges (jsonTemplate st) rows) = List.length rows ->
  exists st', forRows (Some rt) args env rows st = (Ok tt, st').
Proof.
  intros Hserver. revert st.
  induction rows as [|row rows IH]; intros st Hlen; simpl in Hlen.
  - exists st. reflexivity.
  - destruct (customiseJsonFromCsvRow (jsonTemplate st) row) as [t|] eqn:E;
      [|discriminate].
    rewrite (forRows_step _ _ _ _ _ _ _ E). unfold bind.
    destruct (Hserver (List.length (posts (events st))) (endpoint args rt) t)
      as [text Hs].
    rewrite (calculate_response rt args env t
               {| jsonTemplate := t; events := events st |} 200 text Hs).
    simpl Z.eqb. cbv iota.
    apply IH. simpl in *. lia.
Qed.

(** X18: when a run completes.  If every validation passes, the service
    answers every request with status 200 and every row of the CSV file
    merges, the run ends in the final exit of line 64: its only failures
    are the ones of the validations, of a merge and of a response. *)
Theorem run_completes
  (requestType : option string) (args : arguments) (env : environment)
  (csvInputList : option (list dict)) (st : state) :
  startup requestType args env initial = (Ok csvInputList, st) ->
  (forall n url json, exists text, server env n url json = Response 200 text) ->
  List.length (merges (jsonTemplate st) (rows_of csvInputList))
  = List.length (rows_of csvInputList) ->
  fst (run requestType args env) = Fail (SystemExit ProcessCompleted).
Proof.
  intros Hstart Hserver Hmerges.
  destruct (startup_ok_inv _ _ _ _ _ Hstart) as (Hpre & _ & _).
  assert (Hrt : requestType = Some "area") by apply Hpre. subst requestType.
  unfold run, init, bind. rewrite Hstart. unfold dispatch.
  destruct (csv_given args && has_rows csvInputList).
  - destruct (forRows_all_ok "area" args env _ st Hserver Hmerges) as [st' H].
    now rewrite H.
  - unfold bind, getTemplate.
    destruct (Hserver (List.length (posts (events st))) (endpoint args "area")
                (jsonTemplate st)) as [text Hs].
    rewrite (calculate_response "area" args env (jsonTemplate st) st 200 text Hs).
    reflexivity.
Qed.

Lemma run_completes_witness :
  fst (run (Some "area") (Sample.args (Some "/data/in.csv") true)
         (Sample.env Sample.template [["transmitter.lat"]; ["5.5"]; ["6.5"]] []))
  = Fail (SystemExit ProcessCompleted).
Proof.
  refine (run_completes (Some "area") (Sample.args (Some "/data/in.csv") true)
            (Sample.env Sample.template [["transmitter.lat"]; ["5.5"]; ["6.5"]] [])
            _ _ eq_refl _ eq_refl).
  intros n url json. exists "body". simpl.
  destruct n as [|[|n]]; reflexivity.
Defined.
